(** * tap-zendesk: the incremental replication engine of [tap_zendesk/streams.py]

    A shallow embedding of the stream classes of [streams.py] and the
    properties of their bookmark handling, window loops, child expansion
    and record filters.

    Conventions of the embedding.

    - A [datetime] is a UTC instant, in microseconds since the epoch, as
      Python's [datetime.datetime] holds it.
    - A timestamp string in [DATETIME_FORMAT] ("%Y-%m-%dT%H:%M:%SZ") is
      represented by the number of whole seconds since the epoch that it
      spells.  The format is fixed-width and zero-padded, so Python's order
      on such strings is the order of these numbers; the source relies on the
      same fact when it compares [parsed_start <= user.updated_at].
    - Generators are run to completion: a [sync] yields the list of its
      observable events (requests, sleeps, yielded records, state writes,
      warnings) together with how it ended.  [LOGGER.info] lines change
      nothing and are left out.
    - The remote API is an oracle passed as an argument. *)

From Stdlib Require Import ZArith Lia List String Bool.
From stdpp Require Import base option list strings gmap.
Import ListNotations.

Local Open Scope Z_scope.

(** ** Time *)

Abbreviation datetime := Z (only parsing).
Abbreviation tstr := Z (only parsing).

(** [datetime.timedelta(seconds=n)] *)
Definition timedelta (seconds : Z) : Z := seconds * 1000000.

(** [dt.strftime(DATETIME_FORMAT)] and [singer.strftime(dt, DATETIME_FORMAT)]:
    the microseconds are dropped. *)
Definition strftime (dt : datetime) : tstr := dt / 1000000.

(** [utils.strptime_with_tz(s)] *)
Definition strptime_with_tz (s : tstr) : datetime := s * 1000000.

(** [datetime.datetime.utcfromtimestamp(n).replace(tzinfo=pytz.UTC)] for an
    integer epoch [n]. *)
Definition utcfromtimestamp (n : Z) : datetime := n * 1000000.

(** [utils.strftime(dt)]: singer's default format also prints the
    microseconds.  It is only applied to instants built from an integer
    epoch, and its result is only parsed back by [strptime_with_tz], so the
    whole seconds determine it. *)
Definition utils_strftime (dt : datetime) : tstr := dt / 1000000.

Definition DEFAULT_SEARCH_WINDOW_SIZE : Z := (60 * 60 * 24) * 30.

(** ** Exceptions and results *)

Inductive exn : Type :=
| TypeError                      (* strptime_with_tz(None) *)
| Exception_ (msg : string)      (* raise Exception(...) *)
| AssertionError                 (* raise AssertionError(...) and assert *)
| APIException (msg : string).   (* raised by the zenpy client *)

Inductive result (A : Type) : Type :=
| Ok (a : A)
| Raise (e : exn).
Arguments Ok {A} a.
Arguments Raise {A} e.

(** How a generator run ends: exhausted, by an exception, or not within the
    given number of loop iterations. *)
Inductive outcome (A : Type) : Type :=
| Done (a : A)
| Raised (e : exn)
| OutOfFuel.
Arguments Done {A} a.
Arguments Raised {A} e.
Arguments OutOfFuel {A}.

(** ** Singer state

    [state["bookmarks"]], a dict from stream name to a dict from replication
    key to timestamp string.  [singer.get_bookmark] and
    [singer.write_bookmark] are the library's accessors. *)

Abbreviation State := (gmap string (gmap string Z)) (only parsing).

Definition singer_get_bookmark (state : State) (tap_stream_id key : string)
  : option tstr :=
  match state !! tap_stream_id with
  | Some marks => marks !! key
  | None => None
  end.

Definition singer_write_bookmark (state : State) (tap_stream_id key : string)
    (val : tstr) : State :=
  <[tap_stream_id := <[key := val]> (default ∅ (state !! tap_stream_id))]> state.

(** ** class Stream *)

Record Stream : Type := {
  name : string;
  replication_key : string
}.

Definition get_bookmark (self : Stream) (state : State) : result datetime :=
  match singer_get_bookmark state (name self) (replication_key self) with
  | Some v => Ok (strptime_with_tz v)
  | None => Raise TypeError
  end.

(** [value] is a timestamp string or a falsy value ([None], the empty
    string), the latter being [None] here. *)
Definition update_bookmark (self : Stream) (state : State) (value : option tstr)
  : result State :=
  match get_bookmark self state with
  | Raise e => Raise e
  | Ok current_bookmark =>
      match value with
      | Some v =>
          if current_bookmark <? strptime_with_tz v then
            let value' := strptime_with_tz v + timedelta 1 in
            let value' := strftime value' in
            Ok (singer_write_bookmark state (name self) (replication_key self) value')
          else Ok state
      | None => Ok state
      end
  end.

(** A run of advances, one after the other, as the sync loops issue them. *)
Fixpoint update_bookmarks (self : Stream) (state : State)
    (values : list (option tstr)) : result State :=
  match values with
  | [] => Ok state
  | value :: rest =>
      match update_bookmark self state value with
      | Ok state' => update_bookmarks self state' rest
      | Raise e => Raise e
      end
  end.

(** ** Events and the remote API *)

(** What a sync does that can be seen from outside, in order. *)
Inductive event (R : Type) : Type :=
| Search (updated_after updated_before : tstr)  (* client.search(type="user") *)
| SatisfactionQuery (start_time end_time : Z)   (* client.satisfaction_ratings *)
| ChildFetch (ticket : Z)                       (* client.tickets.audits/metrics/comments *)
| Sleep (seconds : Z)                           (* time.sleep *)
| Yield (r : R)                                 (* yield self.stream, r *)
| WriteState (state : State)                    (* singer.write_state *)
| Warning (msg : string).                       (* LOGGER.warning *)
Arguments Search {R} _ _.
Arguments SatisfactionQuery {R} _ _.
Arguments ChildFetch {R} _.
Arguments Sleep {R} _.
Arguments Yield {R} _.
Arguments WriteState {R} _.
Arguments Warning {R} _.

Definition is_Yield {R : Type} (e : event R) : bool :=
  match e with Yield _ => true | _ => false end.

(** A user or a satisfaction rating, as far as the engine looks at it. *)
Record Row : Type := {
  row_id : Z;
  updated_at : tstr
}.

(** A search result page set: [.count] is the total the API reports, the
    items are what iterating the result gives. *)
Record SearchResult : Type := {
  count : Z;
  items : list Row
}.

(** The bounded-search oracle.  Its first argument is the number of requests
    the sync has issued before this one, so that the same window may answer
    differently when it is asked again. *)
Abbreviation SearchApi := (nat -> Z -> Z -> SearchResult) (only parsing).

(** [config]: the one key the window loops read. *)
Record Config : Type := {
  cfg_search_window_size : option Z
}.

(** The local variables of a window loop. *)
Record locals : Type := {
  state : State;
  search_window_size : Z;
  start : datetime;
  end_ : datetime;
  num_retries : Z;       (* Users only *)
  requests : nat         (* requests issued so far *)
}.

(** ** class Users *)

Module Users.

Definition self : Stream :=
  {| name := "users"; replication_key := "updated_at" |}.

Section sync.
Variable config : Config.
Variable now : datetime.            (* singer.utils.now() *)
Variable search : SearchApi.

Definition original_search_window_size : Z :=
  default DEFAULT_SEARCH_WINDOW_SIZE (cfg_search_window_size config).
Definition sync_end : datetime := now - timedelta 60.
Definition parsed_sync_end : tstr := strftime sync_end.

Definition parsed_start (l : locals) : tstr := strftime (start l).
Definition parsed_end (l : locals) : tstr :=
  Z.min (strftime (end_ l)) parsed_sync_end.

(** One pass through the body of [while start < sync_end]. *)
Definition body (l : locals) : list (event Row) * result locals :=
  let users := search (requests l) (parsed_start l) (parsed_end l) in
  let query := Search (parsed_start l) (parsed_end l) in
  if 1000 <? count users then
    if 1 <? search_window_size l then
      let search_window_size' := search_window_size l / 2 in
      ([query],
       Ok {| state := state l;
             search_window_size := search_window_size';
             start := start l;
             end_ := start l + timedelta search_window_size';
             num_retries := num_retries l;
             requests := S (requests l) |})
    else
      ([query],
       Raise (Exception_ "users - Unable to get all users within minimum window of a single second"))
  else
    let users := items users in
    if negb (forallb (fun user => parsed_start l <=? updated_at user) users) then
      if num_retries l <? 60 then
        ([query; Sleep 30],
         Ok {| state := state l;
               search_window_size := search_window_size l;
               start := start l;
               end_ := end_ l;
               num_retries := num_retries l + 1;
               requests := S (requests l) |})
      else ([query], Raise AssertionError)
    else
      let yielded :=
        List.filter
          (fun user => (parsed_start l <=? updated_at user)
                       && (updated_at user <=? parsed_end l)) users in
      match update_bookmark self (state l) (Some (parsed_end l)) with
      | Raise e => (query :: map Yield yielded, Raise e)
      | Ok state' =>
          let search_window_size' :=
            if search_window_size l <=? original_search_window_size / 2
            then search_window_size l * 2 else search_window_size l in
          let start' := end_ l - timedelta 1 in
          (query :: map Yield yielded ++ [WriteState state'],
           Ok {| state := state';
                 search_window_size := search_window_size';
                 start := start';
                 end_ := start' + timedelta search_window_size';
                 num_retries := 0;
                 requests := S (requests l) |})
      end.

Fixpoint loop (fuel : nat) (l : locals) : list (event Row) * outcome locals :=
  match fuel with
  | O => ([], OutOfFuel)
  | S fuel' =>
      if start l <? sync_end then
        match body l with
        | (evs, Ok l') =>
            let '(evs', o) := loop fuel' l' in (evs ++ evs', o)
        | (evs, Raise e) => (evs, Raised e)
        end
      else ([], Done l)
  end.

Definition sync (fuel : nat) (st : State) : list (event Row) * outcome locals :=
  match get_bookmark self st with
  | Raise e => ([], Raised e)
  | Ok bookmark =>
      let start := bookmark - timedelta 1 in
      loop fuel {| state := st;
                   search_window_size := original_search_window_size;
                   start := start;
                   end_ := start + timedelta original_search_window_size;
                   num_retries := 0;
                   requests := O |}
  end.
End sync.

End Users.

(** ** class SatisfactionRatings *)

Module SatisfactionRatings.

Definition self : Stream :=
  {| name := "satisfaction_ratings"; replication_key := "updated_at" |}.

Section sync.
Variable config : Config.
Variable now : datetime.
Variable satisfaction_ratings : SearchApi.
Variable bookmark : datetime.       (* read once, before the loop *)

Definition original_search_window_size : Z :=
  default DEFAULT_SEARCH_WINDOW_SIZE (cfg_search_window_size config).
Definition sync_end : datetime := now - timedelta 60.
(** [int(sync_end.strftime('%s'))], on a host whose clock zone is UTC. *)
Definition epoch_sync_end : Z := strftime sync_end.

Definition epoch_start (l : locals) : Z := strftime (start l).
Definition parsed_start (l : locals) : tstr := strftime (start l).
Definition epoch_end (l : locals) : Z := strftime (end_ l).
Definition parsed_end (l : locals) : tstr := strftime (end_ l).

(** [for satisfaction_rating in satisfaction_ratings: ...] *)
Fixpoint each_rating (l : locals) (ratings : list Row) (st : State)
  : list (event Row) * result State :=
  match ratings with
  | [] => ([], Ok st)
  | satisfaction_rating :: rest =>
      if parsed_start l <=? updated_at satisfaction_rating then
        let advanced :=
          if (bookmark <? strptime_with_tz (updated_at satisfaction_rating))
             && (strptime_with_tz (updated_at satisfaction_rating) <=? end_ l)
          then update_bookmark self st (Some (updated_at satisfaction_rating))
          else Ok st in
        match advanced with
        | Raise e => ([], Raise e)
        | Ok st' =>
            let yielded :=
              if (parsed_start l <=? updated_at satisfaction_rating)
                 && (updated_at satisfaction_rating <=? parsed_end l)
              then [Yield satisfaction_rating] else [] in
            let '(evs, r) := each_rating l rest st' in
            (yielded ++ evs, r)
        end
      else ([], Raise AssertionError)
  end.

(** One pass through the body of [while start < sync_end]. *)
Definition body (l : locals) : list (event Row) * result locals :=
  let end_time := Z.min (epoch_end l) epoch_sync_end in
  let ratings := satisfaction_ratings (requests l) (epoch_start l) end_time in
  let query := SatisfactionQuery (epoch_start l) end_time in
  if 50000 <? count ratings then
    let search_window_size' := search_window_size l / 2 in
    ([query],
     Ok {| state := state l;
           search_window_size := search_window_size';
           start := start l;
           end_ := start l + timedelta search_window_size';
           num_retries := num_retries l;
           requests := S (requests l) |})
  else
    match each_rating l (items ratings) (state l) with
    | (evs, Raise e) => (query :: evs, Raise e)
    | (evs, Ok state') =>
        let search_window_size' :=
          if search_window_size l <=? original_search_window_size / 2
          then search_window_size l * 2 else search_window_size l in
        let start' := end_ l - timedelta 1 in
        (query :: evs ++ [WriteState state'],
         Ok {| state := state';
               search_window_size := search_window_size';
               start := start';
               end_ := start' + timedelta search_window_size';
               num_retries := num_retries l;
               requests := S (requests l) |})
    end.

Fixpoint loop (fuel : nat) (l : locals) : list (event Row) * outcome locals :=
  match fuel with
  | O => ([], OutOfFuel)
  | S fuel' =>
      if start l <? sync_end then
        match body l with
        | (evs, Ok l') =>
            let '(evs', o) := loop fuel' l' in (evs ++ evs', o)
        | (evs, Raise e) => (evs, Raised e)
        end
      else ([], Done l)
  end.
End sync.

Definition sync (config : Config) (now : datetime)
    (satisfaction_ratings : SearchApi) (fuel : nat) (st : State)
  : list (event Row) * outcome locals :=
  match get_bookmark self st with
  | Raise e => ([], Raised e)
  | Ok bookmark =>
      let start := bookmark in
      loop config now satisfaction_ratings bookmark fuel
        {| state := st;
           search_window_size := original_search_window_size config;
           start := start;
           end_ := start + timedelta (original_search_window_size config);
           num_retries := 0;
           requests := O |}
  end.

End SatisfactionRatings.

(** ** class Tickets and its child streams *)

Record Ticket : Type := {
  ticket_id : Z;                  (* ticket["id"] *)
  status : string;                (* ticket["status"] *)
  generated_timestamp : Z         (* ticket["generated_timestamp"], epoch seconds *)
}.

(** A child object of the API (an audit, a metric, a comment) and the dict
    the engine yields for it: [child.to_dict()] with the parent's
    [generated_timestamp] added. *)
Record Child : Type := { child_id : Z }.
Record ChildDict : Type := {
  child : Child;
  ticket_generated_timestamp : Z
}.

(** [client.tickets.audits(ticket=id)] and its siblings: the children, or the
    exception the request raises. *)
Abbreviation ChildApi := (Z -> result (list Child)) (only parsing).
Abbreviation MetricApi := (Z -> result Child) (only parsing).

Definition is_ChildFetch {R : Type} (i : Z) (e : event R) : bool :=
  match e with ChildFetch j => i =? j | _ => false end.

(** How many child fetches for ticket [i] a run issued. *)
Definition fetches {R : Type} (i : Z) (evs : list (event R)) : nat :=
  length (List.filter (is_ChildFetch i) evs).

Definition deleted (ticket : Ticket) : bool :=
  bool_decide (status ticket = "deleted"%string).

Definition seen (ticket : Ticket) (ids : list Z) : bool :=
  bool_decide (ticket_id ticket ∈ ids).

(** Exceptions that [exn] does not list, next to those it does. *)
Inductive pyerr : Type :=
| KeyError (key : string)     (* d[key], d.pop(key) on a missing key *)
| ValueError (msg : string)   (* raise ValueError(...) *)
| Exn (e : exn).

(** [ticket.to_dict()] as [Tickets.sync] handles it: the ticket, and its
    ['fields'] entry (a duplicate of the custom fields) when the dict has
    one. *)
Record TicketDict : Type := {
  dict_ticket : Ticket;
  dict_fields : option (list Z)
}.

Module Tickets.

(** [push_ticket_child]: a generator with one [yield]; the bookmark is
    updated before the record is handed out. *)
Definition push_ticket_child (self : Stream) (st : State) (ticket : Ticket)
    (c : Child) : list (event ChildDict) * result State :=
  let generated_timestamp := generated_timestamp ticket in
  let c' := {| child := c; ticket_generated_timestamp := generated_timestamp |} in
  let generated_timestamp_dt := utcfromtimestamp generated_timestamp + timedelta 1 in
  match update_bookmark self st (Some (utils_strftime generated_timestamp_dt)) with
  | Raise e => ([], Raise e)
  | Ok st' => ([Yield c'], Ok st')
  end.

(** [for c in children: yield from self.push_ticket_child(state, ticket, c)] *)
Fixpoint push_ticket_children (self : Stream) (st : State) (ticket : Ticket)
    (children : list Child) : list (event ChildDict) * result State :=
  match children with
  | [] => ([], Ok st)
  | c :: rest =>
      match push_ticket_child self st ticket c with
      | (evs, Raise e) => (evs, Raise e)
      | (evs, Ok st') =>
          let '(evs', r) := push_ticket_children self st' ticket rest in
          (evs ++ evs', r)
      end
  end.

Definition self : Stream :=
  {| name := "tickets"; replication_key := "generated_timestamp" |}.

(** [for ticket in tickets: ...] of [Tickets.sync]: the bookmark is advanced
    for every listed ticket, the ticket is yielded (without ['fields']) the
    first time its id is seen. *)
Fixpoint loop (tickets : list TicketDict) (ids : list Z) (st : State)
  : list (event TicketDict) * (pyerr + State) :=
  match tickets with
  | [] => ([], inr st)
  | ticket :: rest =>
      let generated_timestamp_dt :=
        utcfromtimestamp (generated_timestamp (dict_ticket ticket)) + timedelta 1 in
      match update_bookmark self st (Some (utils_strftime generated_timestamp_dt)) with
      | Raise e => ([], inl (Exn e))
      | Ok st' =>
          if negb (seen (dict_ticket ticket) ids) then
            let ids := ids ++ [ticket_id (dict_ticket ticket)] in
            match dict_fields ticket with
            | None => ([], inl (KeyError "fields"))
            | Some _ =>
                let ticket' :=
                  {| dict_ticket := dict_ticket ticket; dict_fields := None |} in
                let '(evs, r) := loop rest ids st' in
                (Yield ticket' :: evs, r)
            end
          else loop rest ids st'
      end
  end.

(** [tickets] is what [client.tickets.incremental(start_time=bookmark)]
    lists. *)
Definition sync (tickets : list TicketDict) (st : State)
  : list (event TicketDict) * (pyerr + State) :=
  match get_bookmark self st with
  | Raise e => ([], inl (Exn e))
  | Ok _ => loop tickets [] st
  end.

End Tickets.

(** The loop shared, word for word, by [TicketAudits.sync] and
    [TicketComments.sync]: the status guard, the id list, no handler. *)
Fixpoint guarded_children_loop (self : Stream) (fetch : ChildApi)
    (tickets : list Ticket) (ids : list Z) (st : State)
  : list (event ChildDict) * result State :=
  match tickets with
  | [] => ([], Ok st)
  | ticket :: rest =>
      if negb (deleted ticket) && negb (seen ticket ids) then
        match fetch (ticket_id ticket) with
        | Raise e => ([ChildFetch (ticket_id ticket)], Raise e)
        | Ok children =>
            let ids := ids ++ [ticket_id ticket] in
            match Tickets.push_ticket_children self st ticket children with
            | (evs, Raise e) => (ChildFetch (ticket_id ticket) :: evs, Raise e)
            | (evs, Ok st') =>
                let '(evs', r) := guarded_children_loop self fetch rest ids st' in
                (ChildFetch (ticket_id ticket) :: evs ++ evs', r)
            end
        end
      else guarded_children_loop self fetch rest ids st
  end.

Definition run_children (st : State) (self : Stream)
    (run : State -> list (event ChildDict) * result State)
  : list (event ChildDict) * outcome State :=
  match get_bookmark self st with
  | Raise e => ([], Raised e)
  | Ok _ =>
      match run st with
      | (evs, Ok st') => (evs, Done st')
      | (evs, Raise e) => (evs, Raised e)
      end
  end.

Module TicketAudits.
Definition self : Stream :=
  {| name := "ticket_audits"; replication_key := "ticket_generated_timestamp" |}.

(** [tickets] is what [client.tickets.incremental(start_time=bookmark)]
    lists, [audits] is [client.tickets.audits]. *)
Definition sync (tickets : list Ticket) (audits : ChildApi) (st : State)
  : list (event ChildDict) * outcome State :=
  run_children st self (guarded_children_loop self audits tickets []).
End TicketAudits.

Module TicketComments.
Definition self : Stream :=
  {| name := "ticket_comments"; replication_key := "ticket_generated_timestamp" |}.

Definition sync (tickets : list Ticket) (comments : ChildApi) (st : State)
  : list (event ChildDict) * outcome State :=
  run_children st self (guarded_children_loop self comments tickets []).
End TicketComments.

Module TicketMetrics.
Definition self : Stream :=
  {| name := "ticket_metrics"; replication_key := "ticket_generated_timestamp" |}.

(** No status guard; the fetch and the push are inside [try ... except
    Exception], whose handler logs a warning. *)
Fixpoint loop (metrics : MetricApi) (tickets : list Ticket) (ids : list Z)
    (st : State) : list (event ChildDict) * result State :=
  match tickets with
  | [] => ([], Ok st)
  | ticket :: rest =>
      if negb (seen ticket ids) then
        let ids := ids ++ [ticket_id ticket] in
        let '(evs, st') :=
          match metrics (ticket_id ticket) with
          | Raise _ =>
              ([ChildFetch (ticket_id ticket); Warning "Ticket not found"], st)
          | Ok ticket_metric =>
              match Tickets.push_ticket_child self st ticket ticket_metric with
              | (evs, Raise _) =>
                  (ChildFetch (ticket_id ticket) :: evs ++ [Warning "Ticket not found"], st)
              | (evs, Ok st') => (ChildFetch (ticket_id ticket) :: evs, st')
              end
          end in
        let '(evs', r) := loop metrics rest ids st' in
        (evs ++ evs', r)
      else loop metrics rest ids st
  end.

Definition sync (tickets : list Ticket) (metrics : MetricApi) (st : State)
  : list (event ChildDict) * outcome State :=
  run_children st self (loop metrics tickets []).
End TicketMetrics.

(** ** class GroupMemberships *)

(** The [updated_at] of a membership as the API gives it: null, the empty
    string, or a timestamp string. *)
Inductive timestamp_field : Type :=
| Null
| Empty
| Timestamp (s : tstr).

Record GroupMembership : Type := {
  membership_id : option Z;                 (* None: null *)
  membership_updated_at : timestamp_field
}.

(** Python's truth value of an [int] or [None]: [if membership.id:]. *)
Definition truthy (v : option Z) : bool :=
  match v with
  | Some n => negb (n =? 0)
  | None => false
  end.

(** Python's truth value of a string or [None], [if membership.updated_at:]:
    the string when it is truthy, that is neither null nor empty. *)
Definition truthy_string (v : timestamp_field) : option tstr :=
  match v with
  | Timestamp s => Some s
  | Null | Empty => None
  end.

Module GroupMemberships.
Definition self : Stream :=
  {| name := "group_memberships"; replication_key := "updated_at" |}.

(** One iteration of [for membership in memberships]; [bookmark] is the
    value read before the listing was requested. *)
Definition each (bookmark : datetime) (membership : GroupMembership) (st : State)
  : list (event GroupMembership) * result State :=
  match truthy_string (membership_updated_at membership) with
  | Some updated_at =>
      if bookmark <=? strptime_with_tz updated_at then
        match update_bookmark self st (Some updated_at) with
        | Raise e => ([], Raise e)
        | Ok st' => ([Yield membership], Ok st')
        end
      else ([], Ok st)
  | None =>
      if truthy (membership_id membership) then ([Yield membership], Ok st)
      else ([], Ok st)
  end.

Fixpoint loop (bookmark : datetime) (memberships : list GroupMembership)
    (st : State) : list (event GroupMembership) * result State :=
  match memberships with
  | [] => ([], Ok st)
  | membership :: rest =>
      match each bookmark membership st with
      | (evs, Raise e) => (evs, Raise e)
      | (evs, Ok st') =>
          let '(evs', r) := loop bookmark rest st' in (evs ++ evs', r)
      end
  end.

Definition sync (memberships : list GroupMembership) (st : State)
  : list (event GroupMembership) * outcome State :=
  match get_bookmark self st with
  | Raise e => ([], Raised e)
  | Ok bookmark =>
      match loop bookmark memberships st with
      | (evs, Ok st') => (evs, Done st')
      | (evs, Raise e) => (evs, Raised e)
      end
  end.
End GroupMemberships.

(** ** Scenarios and predicates used in the statements *)

(** A state whose only bookmark is 2020-01-01T00:00:00Z for [self]. *)
Definition state_2020 (self : Stream) : State :=
  singer_write_bookmark ∅ (name self) (replication_key self) 1577836800.


(** The answer to a window query is within the cap but holds a record older
    than the window start. *)
Definition stale (cap parsed_start : Z) (r : SearchResult) : Prop :=
  count r <= cap
  /\ exists row, In row (items r) /\ updated_at row < parsed_start.

(** The answer is within the cap and every record is at or after the window
    start. *)
Definition consistent (cap parsed_start : Z) (r : SearchResult) : Prop :=
  count r <= cap
  /\ forall row, In row (items r) -> parsed_start <= updated_at row.

(** The locals of [Users.sync] after the retry branch: the window is the
    same, one more retry and one more request are counted. *)
Definition retried (l : locals) : locals :=
  {| state := state l;
     search_window_size := search_window_size l;
     start := start l;
     end_ := end_ l;
     num_retries := num_retries l + 1;
     requests := S (requests l) |}.

(** [n] rounds of query-then-sleep on one window. *)
Fixpoint retry_rounds {R : Type} (n : nat) (updated_after updated_before : Z)
  : list (event R) :=
  match n with
  | O => []
  | S n' =>
      Search updated_after updated_before :: Sleep 30
      :: retry_rounds n' updated_after updated_before
  end.

(** The default configuration, and one with a one-second window. *)
Definition config_default : Config := {| cfg_search_window_size := None |}.
Definition config_one_second : Config := {| cfg_search_window_size := Some 1 |}.

(** A clock reading on 2021-01-01, a little after 00:01:00Z. *)
Definition now_2021 : Z := strptime_with_tz 1609459260 + 123456.

(** An API that answers every window with one record dated a second before
    the window start. *)
Definition stale_api : nat -> Z -> Z -> SearchResult :=
  fun _ updated_after _ =>
    {| count := 1;
       items := [ {| row_id := 7; updated_at := updated_after - 1 |} ] |}.

(** An API that has nothing to report, whatever the window. *)
Definition empty_api : nat -> Z -> Z -> SearchResult :=
  fun _ _ _ => {| count := 0; items := [] |}.

(** An API that reports more results than any cap, whatever the window. *)
Definition flooded_api : nat -> Z -> Z -> SearchResult :=
  fun _ _ _ => {| count := 50001; items := [] |}.

(** An API that answers every window with one record dated at the window
    start. *)
Definition boundary_api : nat -> Z -> Z -> SearchResult :=
  fun _ updated_after _ =>
    {| count := 1;
       items := [ {| row_id := 7; updated_at := updated_after |} ] |}.

(** The locals with which a window loop is entered from [state_2020], for a
    window of [size] seconds starting at [start]. *)
Definition locals_2020 (self : Stream) (size start : Z) : locals :=
  {| state := state_2020 self;
     search_window_size := size;
     start := start;
     end_ := start + timedelta size;
     num_retries := 0;
     requests := O |}.

(** The parent of the child-expansion scenario, and a deleted ticket. *)
Definition ticket_42 : Ticket :=
  {| ticket_id := 42; status := "open"; generated_timestamp := 1609459200 |}.
Definition ticket_deleted : Ticket :=
  {| ticket_id := 7; status := "deleted"; generated_timestamp := 1609459200 |}.
Definition ticket_43 : Ticket :=
  {| ticket_id := 43; status := "open"; generated_timestamp := 1609459300 |}.

(** Child APIs: one child for every ticket; and one that has lost ticket 42. *)
Definition one_child : Z -> result (list Child) :=
  fun _ => Ok [ {| child_id := 1 |} ].
Definition one_metric : Z -> result Child :=
  fun _ => Ok {| child_id := 1 |}.
Definition lost_42 : Z -> result (list Child) :=
  fun i => if i =? 42 then Raise (APIException "RecordNotFound")
           else Ok [ {| child_id := 1 |} ].
Definition lost_42_metric : Z -> result Child :=
  fun i => if i =? 42 then Raise (APIException "RecordNotFound")
           else Ok {| child_id := 1 |}.

(** The filter of [GroupMemberships.sync], written as a predicate on one
    record: with a timestamp as [updated_at], it is at or after the bookmark
    read at the start; with a null or empty [updated_at], the id is
    truthy. *)
Definition synced (bookmark : Z) (membership : GroupMembership) : bool :=
  match membership_updated_at membership with
  | Timestamp updated_at => bookmark <=? strptime_with_tz updated_at
  | Null | Empty => truthy (membership_id membership)
  end.

(** Memberships: with a null [updated_at] and the id zero; with a null
    [updated_at] and an id; with an empty [updated_at] and an id; with a
    timestamp. *)
Definition membership_zero : GroupMembership :=
  {| membership_id := Some 0; membership_updated_at := Null |}.
Definition membership_undated : GroupMembership :=
  {| membership_id := Some 5; membership_updated_at := Null |}.
Definition membership_empty : GroupMembership :=
  {| membership_id := Some 10; membership_updated_at := Empty |}.
Definition membership_dated : GroupMembership :=
  {| membership_id := Some 6; membership_updated_at := Timestamp 1577836800 |}.

(** A state whose only bookmark is 2030-01-01T00:00:00Z for [self]. *)
Definition state_2030 (self : Stream) : State :=
  singer_write_bookmark ∅ (name self) (replication_key self) 1893456000.

(** An API that answers every window with one record dated
    2021-01-01T00:25:00Z, whatever the window asked for. *)
Definition late_api : nat -> Z -> Z -> SearchResult :=
  fun _ _ _ =>
    {| count := 1;
       items := [ {| row_id := 9; updated_at := 1609460700 |} ] |}.

(** ** The snapshot streams: Groups, Macros, TicketFields, TicketForms *)

(** The loop shared, word for word, by the [sync] of these four classes: the
    whole collection is listed, a record is kept when its [updated_at] is at
    or after the bookmark read at the start, and kept records advance the
    bookmark. *)
Fixpoint snapshot_loop (self : Stream) (bookmark : datetime)
    (records : list Row) (st : State) : list (event Row) * result State :=
  match records with
  | [] => ([], Ok st)
  | record :: rest =>
      if bookmark <=? strptime_with_tz (updated_at record) then
        match update_bookmark self st (Some (updated_at record)) with
        | Raise e => ([], Raise e)
        | Ok st' =>
            let '(evs, r) := snapshot_loop self bookmark rest st' in
            (Yield record :: evs, r)
        end
      else snapshot_loop self bookmark rest st
  end.

Definition snapshot_sync (self : Stream) (records : list Row) (st : State)
  : list (event Row) * outcome State :=
  match get_bookmark self st with
  | Raise e => ([], Raised e)
  | Ok bookmark =>
      match snapshot_loop self bookmark records st with
      | (evs, Ok st') => (evs, Done st')
      | (evs, Raise e) => (evs, Raised e)
      end
  end.

Module Groups.
Definition self : Stream :=
  {| name := "groups"; replication_key := "updated_at" |}.
Definition sync (groups : list Row) (st : State) := snapshot_sync self groups st.
End Groups.

Module Macros.
Definition self : Stream :=
  {| name := "macros"; replication_key := "updated_at" |}.
Definition sync (macros : list Row) (st : State) := snapshot_sync self macros st.
End Macros.

Module TicketFields.
Definition self : Stream :=
  {| name := "ticket_fields"; replication_key := "updated_at" |}.
Definition sync (fields : list Row) (st : State) := snapshot_sync self fields st.
End TicketFields.

Module TicketForms.
Definition self : Stream :=
  {| name := "ticket_forms"; replication_key := "updated_at" |}.
Definition sync (forms : list Row) (st : State) := snapshot_sync self forms st.
End TicketForms.

(** ** class Organizations *)

Module Organizations.
Definition self : Stream :=
  {| name := "organizations"; replication_key := "updated_at" |}.

(** [datetime.datetime.strptime(s, DATETIME_FORMAT)] *)
Definition datetime_strptime (s : tstr) : datetime := s * 1000000.

(** [for organization in organizations: ...]: no filter; one second is added
    before [update_bookmark] is called. *)
Fixpoint loop (organizations : list Row) (st : State)
  : list (event Row) * result State :=
  match organizations with
  | [] => ([], Ok st)
  | organization :: rest =>
      let bookmark := datetime_strptime (updated_at organization) + timedelta 1 in
      match update_bookmark self st (Some (strftime bookmark)) with
      | Raise e => ([], Raise e)
      | Ok st' =>
          let '(evs, r) := loop rest st' in (Yield organization :: evs, r)
      end
  end.

(** [organizations] is what
    [client.organizations.incremental(start_time=bookmark)] lists. *)
Definition sync (organizations : list Row) (st : State)
  : list (event Row) * outcome State :=
  match get_bookmark self st with
  | Raise e => ([], Raised e)
  | Ok _ =>
      match loop organizations st with
      | (evs, Ok st') => (evs, Done st')
      | (evs, Raise e) => (evs, Raised e)
      end
  end.
End Organizations.

(** The records a run yielded, in order. *)
Fixpoint yields {R : Type} (evs : list (event R)) : list R :=
  match evs with
  | [] => []
  | Yield r :: rest => r :: yields rest
  | _ :: rest => yields rest
  end.

(** ** Custom fields: [process_custom_field] and [_add_custom_fields] *)

Definition CUSTOM_TYPES : gmap string string :=
  list_to_map
    [ ("text", "string"); ("textarea", "string"); ("date", "string");
      ("regexp", "string"); ("dropdown", "string"); ("integer", "integer");
      ("decimal", "number"); ("checkbox", "boolean") ]%string.

(** A custom field description of the API; the options are given by their
    ['value']. *)
Record CustomField : Type := {
  field_type : string;
  field_title : string;
  field_key : string;
  custom_field_options : list string
}.

(** The schema dict built for one field: ['type'], and the optional keys
    ['format'] and ['enum']. *)
Record FieldSchema : Type := {
  schema_type : list string;
  schema_format : option string;
  schema_enum : option (list string)
}.

Definition process_custom_field (field : CustomField) : result FieldSchema :=
  let zendesk_type := field_type field in
  match CUSTOM_TYPES !! zendesk_type with
  | None => Raise (Exception_ "Discovered unsupported type for custom field")
  | Some json_type =>
      Ok {| schema_type := [json_type; "null"%string];
            schema_format :=
              if bool_decide (zendesk_type = "date"%string)
              then Some "datetime"%string else None;
            schema_enum :=
              if bool_decide (zendesk_type = "dropdown"%string)
              then Some (custom_field_options field) else None |}
  end.

(** The message of the API error a plan without custom fields answers
    with. *)
Definition NO_ACCESS : string :=
  "You do not have access to this page. Please contact the account owner of this help desk for further help.".

(** [raise_or_log_zenpy_apiexception(schema, stream, e)].  An [APIException]
    carries its body, [e.args[0]].  [error_message] stands for
    [json.loads(body)['error']['message']], the library's parser and the two
    lookups: it gives the message, or the exception that parsing or indexing
    the body raises (a body that is not JSON, or has no [error.message]).
    The result is the schema and the warnings logged. *)
Definition raise_or_log_zenpy_apiexception {S : Type}
    (error_message : string -> pyerr + string) (schema : S) (e : pyerr)
  : list string * (pyerr + S) :=
  match e with
  | Exn (APIException body) =>
      match error_message body with
      | inl raised => ([], inl raised)
      | inr message =>
          if bool_decide (message = NO_ACCESS) then
            (["The account credentials supplied do not have access to custom fields."%string],
             inr schema)
          else ([], inl e)
      end
  | _ => ([], inl (ValueError "Called with a bad exception type"))
  end.

(** [for field in field_gen: properties[field.key] = process_custom_field(field)],
    starting from [properties]. *)
Fixpoint add_fields (properties : gmap string FieldSchema)
    (field_gen : list CustomField) : pyerr + gmap string FieldSchema :=
  match field_gen with
  | [] => inr properties
  | field :: rest =>
      match process_custom_field field with
      | Raise e => inl (Exn e)
      | Ok field_schema => add_fields (<[field_key field := field_schema]> properties) rest
      end
  end.

(** [Users._add_custom_fields] and [Organizations._add_custom_fields], on the
    [properties] of the schema's custom-field object ([user_fields],
    [organization_fields]): [fields] is what the field listing answers, a
    list or the [APIException] it raises. *)
Definition _add_custom_fields (error_message : string -> pyerr + string)
    (properties : gmap string FieldSchema) (fields : result (list CustomField))
  : list string * (pyerr + gmap string FieldSchema) :=
  match fields with
  | Raise (APIException body) =>
      raise_or_log_zenpy_apiexception error_message properties
        (Exn (APIException body))
  | Raise e => ([], inl (Exn e))
  | Ok field_gen => ([], add_fields ∅ field_gen)
  end.

(** ** [tap_zendesk/__init__.py] *)

Definition REQUIRED_CONFIG_KEYS : list string := ["start_date"; "subdomain"]%string.
Definition OAUTH_CONFIG_KEYS : list string := ["access_token"]%string.
Definition API_TOKEN_CONFIG_KEYS : list string := ["email"; "api_token"]%string.

(** [set(keys).issubset(config.keys())] *)
Definition issubset (keys : list string) (config : gmap string string) : bool :=
  forallb (fun k => bool_decide (is_Some (config !! k))) keys.

(** [config[key]] *)
Definition getitem (config : gmap string string) (key : string)
  : pyerr + string :=
  match config !! key with
  | Some v => inr v
  | None => inl (KeyError key)
  end.

Definition oauth_auth (config : gmap string string)
  : pyerr + option (gmap string string) :=
  if negb (issubset OAUTH_CONFIG_KEYS config) then inr None
  else
    match getitem config "subdomain", getitem config "access_token" with
    | inr subdomain, inr access_token =>
        inr (Some (<["subdomain"%string := subdomain]>
                     (<["oauth_token"%string := access_token]> ∅)))
    | inl e, _ => inl e
    | _, inl e => inl e
    end.

Definition api_token_auth (config : gmap string string)
  : pyerr + option (gmap string string) :=
  if negb (issubset API_TOKEN_CONFIG_KEYS config) then inr None
  else
    match getitem config "subdomain", getitem config "email",
          getitem config "api_token" with
    | inr subdomain, inr email, inr api_token =>
        inr (Some (<["subdomain"%string := subdomain]>
                     (<["email"%string := email]>
                        (<["token"%string := api_token]> ∅))))
    | inl e, _, _ => inl e
    | _, inl e, _ => inl e
    | _, _, inl e => inl e
    end.

(** [get_session]: the marketplace headers of the session, or [None]. *)
Definition get_session (config : gmap string string)
  : option (gmap string string) :=
  if negb (issubset ["marketplace_name"; "marketplace_organization_id";
                     "marketplace_app_id"]%string config)
  then None
  else
    Some (<["X-Zendesk-Marketplace-App-Id"%string :=
              default ""%string (config !! "marketplace_app_id"%string)]>
            (<["X-Zendesk-Marketplace-Organization-Id"%string :=
                 default ""%string (config !! "marketplace_organization_id"%string)]>
               (<["X-Zendesk-Marketplace-Name"%string :=
                    default ""%string (config !! "marketplace_name"%string)]> ∅))).

(** The class attributes of a stream class. *)
Record StreamClass : Type := {
  class_name : string;
  replication_method : string;
  class_replication_key : option string;
  key_properties : list string
}.

Definition incremental (n key : string) : StreamClass :=
  {| class_name := n; replication_method := "INCREMENTAL";
     class_replication_key := Some key; key_properties := ["id"%string] |}.

Definition STREAMS : gmap string StreamClass :=
  list_to_map
    [ ("tickets", incremental "tickets" "generated_timestamp");
      ("groups", incremental "groups" "updated_at");
      ("users", incremental "users" "updated_at");
      ("organizations", incremental "organizations" "updated_at");
      ("ticket_audits", incremental "ticket_audits" "ticket_generated_timestamp");
      ("ticket_comments", incremental "ticket_comments" "ticket_generated_timestamp");
      ("ticket_fields", incremental "ticket_fields" "updated_at");
      ("ticket_forms", incremental "ticket_forms" "updated_at");
      ("group_memberships", incremental "group_memberships" "updated_at");
      ("macros", incremental "macros" "updated_at");
      ("satisfaction_ratings", incremental "satisfaction_ratings" "updated_at");
      ("tags", {| class_name := "tags"; replication_method := "FULL_TABLE";
                  class_replication_key := None; key_properties := ["name"] |});
      ("ticket_metrics", incremental "ticket_metrics" "ticket_generated_timestamp");
      ("sla_policies", {| class_name := "sla_policies";
                          replication_method := "FULL_TABLE";
                          class_replication_key := None;
                          key_properties := ["id"] |}) ]%string.

(** What [do_sync] and [main] write or start, in order. *)
Inductive output : Type :=
| NewClient (creds : gmap string string) (session : option (gmap string string))
                                          (* Zenpy(session=session, **creds) *)
| WriteSchema (stream_name : string)      (* singer.write_schema *)
| SyncStream (stream_name : string)       (* sync_stream(state, start_date, instance) *)
| WriteStateMessage (st : State)          (* singer.write_state *)
| Discover.                               (* do_discover(client) *)

(** The first loop of [do_sync]: [STREAMS[stream.tap_stream_id].stream = stream]. *)
Fixpoint select_streams (catalog : list string) : pyerr + unit :=
  match catalog with
  | [] => inr tt
  | tap_stream_id :: rest =>
      match STREAMS !! tap_stream_id with
      | None => inl (KeyError tap_stream_id)
      | Some _ => select_streams rest
      end
  end.

(** The second loop of [do_sync].  [sync_stream] is the function of
    [tap_zendesk/sync.py], taken as an argument: it returns the state it
    leaves, or raises. *)
Fixpoint sync_streams (sync_stream : State -> StreamClass -> pyerr + State)
    (catalog : list string) (st : State) : list output * (pyerr + State) :=
  match catalog with
  | [] => ([], inr st)
  | stream_name :: rest =>
      match STREAMS !! stream_name with
      | None => ([WriteSchema stream_name], inl (KeyError stream_name))
      | Some class =>
          match sync_stream st class with
          | inl e => ([WriteSchema stream_name; SyncStream stream_name], inl e)
          | inr st' =>
              let '(out, r) := sync_streams sync_stream rest st' in
              (WriteSchema stream_name :: SyncStream stream_name
               :: WriteStateMessage st' :: out, r)
          end
      end
  end.

(** [do_sync(client, catalog, state, config)]; the catalog is given by the
    [tap_stream_id] of its streams. *)
Definition do_sync (sync_stream : State -> StreamClass -> pyerr + State)
    (catalog : list string) (st : State) : list output * (pyerr + State) :=
  match select_streams catalog with
  | inl e => ([], inl e)
  | inr _ => sync_streams sync_stream catalog st
  end.

(** The parsed command line of [main]. *)
Record Args : Type := {
  args_config : gmap string string;
  args_discover : bool;
  args_catalog : option (list string);
  args_state : State
}.

(** [main], after [parse_args]: the credentials ([oauth_auth(...) or
    api_token_auth(...)]), the session, the client ([Zenpy(session=session,
    **creds)], a [TypeError] when [creds] is [None]; the client object is
    truthy, so the [if not client] line that follows does nothing), then
    discovery or sync. *)
Definition main (sync_stream : State -> StreamClass -> pyerr + State)
    (parsed_args : Args) : list output * (pyerr + unit) :=
  let config := args_config parsed_args in
  let creds :=
    match oauth_auth config with
    | inl e => inl e
    | inr (Some creds) => inr (Some creds)
    | inr None => api_token_auth config
    end in
  match creds with
  | inl e => ([], inl e)
  | inr None => ([], inl (Exn TypeError))
  | inr (Some creds) =>
      let client := NewClient creds (get_session config) in
      if args_discover parsed_args then ([client; Discover], inr tt)
      else
        match args_catalog parsed_args with
        | Some catalog =>
            match do_sync sync_stream catalog (args_state parsed_args) with
            | (out, inl e) => (client :: out, inl e)
            | (out, inr _) => (client :: out, inr tt)
            end
        | None => ([client], inr tt)
        end
  end.

(** The stream names a run of [do_sync] started, in order. *)
Fixpoint started (out : list output) : list string :=
  match out with
  | [] => []
  | SyncStream stream_name :: rest => stream_name :: started rest
  | _ :: rest => started rest
  end.

(** Example data for the statements below. *)
Definition rows_2020 : list Row :=
  [ {| row_id := 1; updated_at := 1577836810 |};
    {| row_id := 2; updated_at := 1577836700 |};
    {| row_id := 3; updated_at := 1577836800 |} ].

Definition ticket_dicts : list TicketDict :=
  [ {| dict_ticket := ticket_42; dict_fields := Some [1] |};
    {| dict_ticket := ticket_43; dict_fields := Some [] |};
    {| dict_ticket := ticket_42; dict_fields := Some [1] |} ].

Definition field_dropdown : CustomField :=
  {| field_type := "dropdown"; field_title := "Plan"; field_key := "plan";
     custom_field_options := ["free"; "paid"]%string |}.
(** A stand-in for the parser on three bodies: the no-access answer, another
    JSON error, and a body whose [error] is a plain string. *)
Definition sample_error_message (body : string) : pyerr + string :=
  if bool_decide (body = "no-access body"%string) then inr NO_ACCESS
  else if bool_decide (body = "forbidden body"%string) then inr "Forbidden"%string
  else inl (Exn TypeError).

Definition field_lookup : CustomField :=
  {| field_type := "lookup"; field_title := "Owner"; field_key := "owner";
     custom_field_options := [] |}.

Definition config_both : gmap string string :=
  list_to_map
    [ ("start_date", "2020-01-01T00:00:00Z"); ("subdomain", "acme");
      ("access_token", "t0k3n"); ("email", "a@acme.test");
      ("api_token", "s3cr3t") ]%string.
Definition config_none : gmap string string :=
  list_to_map
    [ ("start_date", "2020-01-01T00:00:00Z"); ("subdomain", "acme") ]%string.

(** A [sync_stream] that succeeds and leaves the state as it is, and one that
    fails on the users stream. *)
Definition sync_stream_ok : State -> StreamClass -> pyerr + State :=
  fun st _ => inr st.
Definition sync_stream_users_fail : State -> StreamClass -> pyerr + State :=
  fun st class =>
    if bool_decide (class_name class = "users"%string)
    then inl (Exn AssertionError) else inr st.

(** An API that is over the cap on every window of two seconds or more and
    empty on the others. *)
Definition crowded_api : nat -> Z -> Z -> SearchResult :=
  fun _ updated_after updated_before =>
    if 2 <=? updated_before - updated_after
    then {| count := 1001; items := [] |}
    else {| count := 0; items := [] |}.

(** The window of a loop is well formed: its size is between [floor] and the
    configured size, and its end is its start plus its size. *)
Definition window_ok (floor original : Z) (l : locals) : Prop :=
  floor <= search_window_size l <= original
  /\ end_ l = start l + timedelta (search_window_size l).

(** The test of the snapshot streams on one record. *)
Definition kept (bookmark : Z) (record : Row) : bool :=
  bookmark <=? strptime_with_tz (updated_at record).

(** The ids of the tickets a run of [Tickets.sync] yielded, in order. *)
Definition yielded_ids (evs : list (event TicketDict)) : list Z :=
  map (fun ticket => ticket_id (dict_ticket ticket)) (yields evs).

(** The Zendesk field types [CUSTOM_TYPES] knows, and the JSON types it maps
    them to. *)
Definition supported_types : list string :=
  ["text"; "textarea"; "date"; "regexp"; "dropdown"; "integer"; "decimal";
   "checkbox"]%string.
Definition json_types : list string :=
  ["string"; "integer"; "number"; "boolean"]%string.
(** * Properties *)

(** ** Time arithmetic *)

Ltac time_lia :=
  unfold strftime, strptime_with_tz, timedelta, utcfromtimestamp,
    utils_strftime in *;
  Z.div_mod_to_equations; lia.

Lemma strftime_plus_second (s : Z) :
  strftime (strptime_with_tz s + timedelta 1) = s + 1.
Proof. time_lia. Qed.

(** ** The bookmark *)

Lemma get_write_bookmark (self : Stream) (st : State) (v : Z) :
  get_bookmark self
    (singer_write_bookmark st (name self) (replication_key self) v)
  = Ok (strptime_with_tz v).
Proof.
  unfold get_bookmark, singer_get_bookmark, singer_write_bookmark.
  now rewrite !lookup_insert_eq.
Qed.

Lemma update_bookmark_Ok (self : Stream) (st : State) (value : option Z)
    (current : Z) :
  get_bookmark self st = Ok current ->
  exists st' current',
    update_bookmark self st value = Ok st'
    /\ get_bookmark self st' = Ok current'
    /\ current <= current'.
Proof.
  intros Hget. unfold update_bookmark. rewrite Hget.
  destruct value as [v|]; [|exists st, current; repeat split; [done|lia]].
  destruct (Z.ltb_spec current (strptime_with_tz v)) as [Hlt|Hge].
  - eexists _, _. split; [reflexivity|]. split; [apply get_write_bookmark|].
    rewrite strftime_plus_second. time_lia.
  - exists st, current. repeat split; [done|lia].
Qed.

Lemma update_bookmarks_monotone (self : Stream) (values : list (option Z)) :
  forall (st : State) (current : Z),
    get_bookmark self st = Ok current ->
    exists st' current',
      update_bookmarks self st values = Ok st'
      /\ get_bookmark self st' = Ok current'
      /\ current <= current'.
Proof.
  induction values as [|value rest IH]; intros st current Hget; simpl.
  - exists st, current. repeat split; [done|lia].
  - destruct (update_bookmark_Ok self st value current Hget)
      as (st1 & c1 & -> & Hget1 & Hle1).
    destruct (IH st1 c1 Hget1) as (st2 & c2 & Hrun & Hget2 & Hle2).
    exists st2, c2. repeat split; [done..|lia].
Qed.

(** C1.  [update_bookmark] writes [candidate + 1 second] exactly when the
    candidate is strictly later than the stream's current bookmark, and
    otherwise returns the state as it was; hence, over any sequence of
    advances, the bookmark read afterwards is never earlier than the one read
    before. *)
Theorem update_bookmark_advance (self : Stream) (st : State)
    (value : option Z) (current : Z) :
  get_bookmark self st = Ok current ->
  (forall candidate,
      value = Some candidate -> current < strptime_with_tz candidate ->
      update_bookmark self st value
      = Ok (singer_write_bookmark st (name self) (replication_key self)
              (candidate + 1))
      /\ get_bookmark self
           (singer_write_bookmark st (name self) (replication_key self)
              (candidate + 1))
         = Ok (strptime_with_tz candidate + timedelta 1))
  /\ ((forall candidate,
          value = Some candidate -> strptime_with_tz candidate <= current) ->
      update_bookmark self st value = Ok st)
  /\ (forall values : list (option Z),
        exists st' current',
          update_bookmarks self st values = Ok st'
          /\ get_bookmark self st' = Ok current'
          /\ current <= current').
Proof.
  intros Hget. split; [|split].
  - intros candidate -> Hlt. unfold update_bookmark. rewrite Hget.
    destruct (Z.ltb_spec current (strptime_with_tz candidate)); [|lia].
    rewrite strftime_plus_second. split; [reflexivity|].
    rewrite get_write_bookmark. f_equal. time_lia.
  - intros Hle. unfold update_bookmark. rewrite Hget.
    destruct value as [v|]; [|reflexivity].
    specialize (Hle v eq_refl).
    destruct (Z.ltb_spec current (strptime_with_tz v)); [lia|reflexivity].
  - intros values. now apply update_bookmarks_monotone.
Qed.

Lemma update_bookmark_advance_witness :
  update_bookmark Users.self (state_2020 Users.self) (Some 1577836900)
  = Ok (singer_write_bookmark (state_2020 Users.self) "users" "updated_at"
          1577836901)
  /\ update_bookmark Users.self (state_2020 Users.self) (Some 1577836800)
     = Ok (state_2020 Users.self).
Proof.
  pose proof (update_bookmark_advance Users.self (state_2020 Users.self)
                (Some 1577836900) (strptime_with_tz 1577836800)
                (get_write_bookmark Users.self ∅ 1577836800)) as [Hadv _].
  pose proof (update_bookmark_advance Users.self (state_2020 Users.self)
                (Some 1577836800) (strptime_with_tz 1577836800)
                (get_write_bookmark Users.self ∅ 1577836800)) as (_ & Hkeep & _).
  split.
  - apply (Hadv 1577836900 eq_refl). reflexivity.
  - apply Hkeep. intros candidate [= <-]. apply Z.le_refl.
Defined.

(** ** Users: the consistency guard *)

Section users_guard.
Variable config : Config.
Variable now : Z.
Variable search : nat -> Z -> Z -> SearchResult.

Lemma stale_forallb (ps : Z) (r : SearchResult) :
  stale 1000 ps r ->
  (1000 <? count r) = false
  /\ forallb (fun user => ps <=? updated_at user) (items r) = false.
Proof.
  intros [Hcap (row & Hin & Hlt)]. split; [lia|].
  destruct (forallb _ _) eqn:Hall; [|reflexivity].
  rewrite forallb_forall in Hall. specialize (Hall row Hin). lia.
Qed.

Lemma consistent_forallb (cap ps : Z) (r : SearchResult) :
  consistent cap ps r ->
  (cap <? count r) = false
  /\ forallb (fun user => ps <=? updated_at user) (items r) = true.
Proof.
  intros [Hcap Hall]. split; [lia|].
  apply forallb_forall. intros row Hin. specialize (Hall row Hin). lia.
Qed.

Lemma body_retry (l : locals) :
  stale 1000 (Users.parsed_start l)
    (search (requests l) (Users.parsed_start l) (Users.parsed_end now l)) ->
  num_retries l < 60 ->
  Users.body config now search l
  = ([Search (Users.parsed_start l) (Users.parsed_end now l); Sleep 30],
     Ok (retried l)).
Proof.
  intros Hstale Hn. apply stale_forallb in Hstale as [Hcap Hall].
  unfold Users.body. rewrite Hcap, Hall. simpl.
  destruct (Z.ltb_spec (num_retries l) 60); [reflexivity|lia].
Qed.

Lemma body_exhausted (l : locals) :
  stale 1000 (Users.parsed_start l)
    (search (requests l) (Users.parsed_start l) (Users.parsed_end now l)) ->
  60 <= num_retries l ->
  Users.body config now search l
  = ([Search (Users.parsed_start l) (Users.parsed_end now l)],
     Raise AssertionError).
Proof.
  intros Hstale Hn. apply stale_forallb in Hstale as [Hcap Hall].
  unfold Users.body. rewrite Hcap, Hall. simpl.
  destruct (Z.ltb_spec (num_retries l) 60); [lia|reflexivity].
Qed.

Lemma body_pass (l : locals) (current : Z) :
  consistent 1000 (Users.parsed_start l)
    (search (requests l) (Users.parsed_start l) (Users.parsed_end now l)) ->
  get_bookmark Users.self (state l) = Ok current ->
  exists evs l',
    Users.body config now search l = (evs, Ok l')
    /\ num_retries l' = 0
    /\ start l' = end_ l - timedelta 1
    /\ end_ l' = start l' + timedelta (search_window_size l')
    /\ search_window_size l'
       = (if search_window_size l <=? Users.original_search_window_size config / 2
          then search_window_size l * 2 else search_window_size l)
    /\ requests l' = S (requests l)
    /\ exists current', get_bookmark Users.self (state l') = Ok current'.
Proof.
  intros Hok Hget. apply consistent_forallb in Hok as [Hcap Hall].
  unfold Users.body. rewrite Hcap, Hall. simpl.
  destruct (update_bookmark_Ok Users.self (state l)
              (Some (Users.parsed_end now l)) current Hget)
    as (st' & c' & -> & Hget' & _).
  eexists _, _. split; [reflexivity|]. simpl. eauto 10.
Qed.

Lemma retry_run (n : nat) :
  forall (l : locals) (fuel : nat),
    num_retries l = 60 - Z.of_nat n ->
    start l < Users.sync_end now ->
    (forall k : nat, (k <= n)%nat ->
       stale 1000 (Users.parsed_start l)
         (search (requests l + k)%nat (Users.parsed_start l)
            (Users.parsed_end now l))) ->
    Users.loop config now search (S n + fuel) l
    = (retry_rounds n (Users.parsed_start l) (Users.parsed_end now l)
         ++ [Search (Users.parsed_start l) (Users.parsed_end now l)],
       Raised AssertionError).
Proof.
  induction n as [|n IH]; intros l fuel Hn Hlt Hstale.
  - simpl. destruct (Z.ltb_spec (start l) (Users.sync_end now)); [|lia].
    rewrite body_exhausted; [reflexivity| |lia].
    specialize (Hstale O (Nat.le_refl _)). now rewrite Nat.add_0_r in Hstale.
  - change (S (S n) + fuel)%nat with (S (S n + fuel)).
    cbn [Users.loop].
    destruct (Z.ltb_spec (start l) (Users.sync_end now)); [|lia].
    rewrite body_retry; [| |lia].
    + rewrite (IH (retried l) fuel); [reflexivity| | |].
      * simpl. lia.
      * exact Hlt.
      * intros k Hk. specialize (Hstale (S k) ltac:(lia)).
        replace (requests (retried l) + k)%nat with (requests l + S k)%nat
          by (simpl; lia).
        exact Hstale.
    + specialize (Hstale O ltac:(lia)). now rewrite Nat.add_0_r in Hstale.
Qed.

End users_guard.

Lemma retry_rounds_no_yield {R : Type} (n : nat) (a b : Z) :
  List.filter is_Yield (retry_rounds (R := R) n a b ++ [Search a b]) = [].
Proof. induction n as [|n IH]; simpl; [reflexivity|exact IH]. Qed.

(** C3.  The consistency guard of [Users.sync].  When an in-cap answer holds
    a record older than the window start: below 60 retries the pass sleeps
    30 seconds, counts one retry and leaves the window as it was, so the next
    request is the same query; at 60 retries it raises [AssertionError] with
    nothing yielded.  A violation that persists from a fresh window through
    61 requests ends the run with that single exception after exactly 60
    sleeps, and no record of the window is yielded.  A pass that finds the
    answer consistent leaves the retry counter at zero. *)
Theorem users_consistency_guard (config : Config) (now : Z)
    (search : nat -> Z -> Z -> SearchResult) (l : locals) :
  let ps := Users.parsed_start l in
  let pe := Users.parsed_end now l in
  (stale 1000 ps (search (requests l) ps pe) ->
     (num_retries l < 60 ->
        Users.body config now search l
        = ([Search ps pe; Sleep 30], Ok (retried l))
        /\ Users.parsed_start (retried l) = ps
        /\ Users.parsed_end now (retried l) = pe)
     /\ (60 <= num_retries l ->
           Users.body config now search l
           = ([Search ps pe], Raise AssertionError)))
  /\ (num_retries l = 0 ->
      start l < Users.sync_end now ->
      (forall k : nat, (k <= 60)%nat ->
         stale 1000 ps (search (requests l + k)%nat ps pe)) ->
      forall fuel : nat,
        Users.loop config now search (61 + fuel) l
        = (retry_rounds 60 ps pe ++ [Search ps pe], Raised AssertionError)
        /\ List.filter is_Yield
             (fst (Users.loop config now search (61 + fuel) l)) = [])
  /\ (forall current : Z,
        consistent 1000 ps (search (requests l) ps pe) ->
        get_bookmark Users.self (state l) = Ok current ->
        exists evs l',
          Users.body config now search l = (evs, Ok l')
          /\ num_retries l' = 0).
Proof.
  intros ps pe. split; [|split].
  - intros Hstale. split.
    + intros Hn. split; [|split; reflexivity].
      now apply body_retry.
    + intros Hn. now apply body_exhausted.
  - intros Hzero Hlt Hstale fuel.
    assert (Hrun := retry_run config now search 60 l fuel
                      ltac:(simpl; lia) Hlt Hstale).
    change (S 60 + fuel)%nat with (61 + fuel)%nat in Hrun.
    rewrite Hrun. split; [reflexivity|].
    apply retry_rounds_no_yield.
  - intros current Hok Hget.
    destruct (body_pass config now search l current Hok Hget)
      as (evs & l' & Hbody & Hretries & _).
    now exists evs, l'.
Qed.

Lemma users_consistency_guard_witness :
  let l := locals_2020 Users.self DEFAULT_SEARCH_WINDOW_SIZE
             (strptime_with_tz 1577836799) in
  Users.loop config_default now_2021 stale_api 61 l
  = (retry_rounds 60 1577836799 1580428799 ++ [Search 1577836799 1580428799],
     Raised AssertionError)
  /\ Users.body config_default now_2021 stale_api l
     = ([Search 1577836799 1580428799; Sleep 30], Ok (retried l))
  /\ (exists evs l',
        Users.body config_default now_2021 boundary_api l = (evs, Ok l')
        /\ num_retries l' = 0).
Proof.
  intros l.
  assert (Hstale : forall k : nat,
             stale 1000 (Users.parsed_start l)
               (stale_api k (Users.parsed_start l)
                  (Users.parsed_end now_2021 l))).
  { intros k. split; [vm_compute; discriminate|].
    eexists. split; [left; reflexivity|]. vm_compute. reflexivity. }
  destruct (users_consistency_guard config_default now_2021 stale_api l)
    as (Hstep & Hrun & _).
  destruct (Hstep (Hstale _)) as [Hretry _].
  destruct (users_consistency_guard config_default now_2021 boundary_api l)
    as (_ & _ & Hpass).
  split; [|split].
  - apply (Hrun eq_refl); [reflexivity|]. intros k _. apply Hstale.
  - apply Hretry. reflexivity.
  - apply (Hpass (strptime_with_tz 1577836800)).
    + split; [vm_compute; discriminate|].
      intros row [<-|[]]. vm_compute. discriminate.
    + apply get_write_bookmark.
Defined.

(** ** The window filter *)

Lemma each_rating_yields (bookmark : Z) (l : locals) (ratings : list Row) :
  forall (st : State) (r : Row),
    In (Yield r) (fst (SatisfactionRatings.each_rating bookmark l ratings st)) ->
    SatisfactionRatings.parsed_start l <= updated_at r
    /\ updated_at r <= SatisfactionRatings.parsed_end l.
Proof.
  induction ratings as [|rating rest IH]; intros st r; simpl; [tauto|].
  destruct (Z.leb_spec (SatisfactionRatings.parsed_start l) (updated_at rating));
    simpl; [|tauto].
  match goal with
  | |- context [match ?adv with Ok _ => _ | Raise _ => _ end] =>
      destruct adv as [st'|e]
  end; simpl; [|tauto].
  destruct (SatisfactionRatings.each_rating bookmark l rest st')
    as [evs res] eqn:Hrest.
  specialize (IH st' r). rewrite Hrest in IH. simpl in *.
  destruct (Z.leb_spec (updated_at rating) (SatisfactionRatings.parsed_end l));
    simpl; [|exact IH].
  intros [[= <-]|Hin]; [lia|now apply IH].
Qed.

(** In one pass, [Users.sync] and [SatisfactionRatings.sync] yield a record
    only if its timestamp lies between the [start] and the [end] of the
    loop, both bounds included; for users the upper bound is moreover clipped
    to [sync_end], for satisfaction ratings it is not. *)
Theorem yielded_within_window (config : Config) (now : Z)
    (api : nat -> Z -> Z -> SearchResult) (bookmark : Z) (l : locals) (r : Row) :
  (In (Yield r) (fst (Users.body config now api l)) ->
     strftime (start l) <= updated_at r <= strftime (end_ l)
     /\ updated_at r <= Users.parsed_sync_end now)
  /\ (In (Yield r) (fst (SatisfactionRatings.body config now api bookmark l)) ->
        strftime (start l) <= updated_at r <= strftime (end_ l)).
Proof.
  split.
  - unfold Users.body.
    destruct (1000 <? count _).
    { destruct (1 <? search_window_size l); simpl; intuition discriminate. }
    destruct (negb _).
    { destruct (num_retries l <? 60); simpl; intuition discriminate. }
    set (yielded := List.filter _ _).
    assert (Hyielded : In (Yield r) (map Yield yielded) ->
              strftime (start l) <= updated_at r <= strftime (end_ l)
              /\ updated_at r <= Users.parsed_sync_end now).
    { rewrite in_map_iff. intros (u & [= ->] & Hin).
      apply filter_In in Hin as [_ Hin].
      apply andb_true_iff in Hin as [Hlo Hhi].
      unfold Users.parsed_start, Users.parsed_end in *. lia. }
    destruct (update_bookmark _ _ _); simpl.
    + intros [Hq|Hin]; [discriminate|].
      apply in_app_or in Hin as [Hin|[Hw|[]]]; [auto|discriminate].
    + intros [Hq|Hin]; [discriminate|auto].
  - unfold SatisfactionRatings.body.
    destruct (50000 <? count _); [simpl; intuition discriminate|].
    pose proof (each_rating_yields bookmark l
                  (items (api (requests l) (SatisfactionRatings.epoch_start l)
                            (Z.min (SatisfactionRatings.epoch_end l)
                               (SatisfactionRatings.epoch_sync_end now))))
                  (state l) r) as Hin.
    destruct (SatisfactionRatings.each_rating _ _ _ _) as [evs [st'|e]];
      simpl in *.
    + intros [Hq|H]; [discriminate|].
      apply in_app_or in H as [H|[Hw|[]]]; [|discriminate].
      specialize (Hin H).
      unfold SatisfactionRatings.parsed_start, SatisfactionRatings.parsed_end in Hin.
      lia.
    + intros [Hq|H]; [discriminate|]. specialize (Hin H).
      unfold SatisfactionRatings.parsed_start, SatisfactionRatings.parsed_end in Hin.
      lia.
Qed.

Lemma yielded_within_window_witness :
  let l := locals_2020 Users.self 3600 (strptime_with_tz 1577836799) in
  (strftime (start l) <= 1577836799 <= strftime (end_ l)
   /\ 1577836799 <= Users.parsed_sync_end now_2021)
  /\ strftime (start l) <= 1577836799 <= strftime (end_ l).
Proof.
  intros l.
  destruct (yielded_within_window config_default now_2021 boundary_api
              (strptime_with_tz 1577836800) l
              {| row_id := 7; updated_at := 1577836799 |}) as [Husers Hratings].
  split.
  - apply Husers. vm_compute. right. left. reflexivity.
  - apply Hratings. vm_compute. right. left. reflexivity.
Defined.

(** C4.  [SatisfactionRatings.sync] yields a rating dated after the end of
    the window it queried.  With [sync_end] at 2021-01-01T00:00:00Z and a
    one-hour window started at 2020-12-31T23:43:20Z, the query is clipped to
    end at [sync_end], but the filter on the answer uses the unclipped
    [parsed_end]: the rating dated 2021-01-01T00:25:00Z that the API returns
    is yielded.  [Users.sync], which filters on the clipped end, yields
    nothing on the same answer. *)
Theorem satisfaction_rating_past_query_end :
  let bookmark := strptime_with_tz 1577836800 in
  let start := strptime_with_tz 1609458200 in
  let rating := {| row_id := 9; updated_at := 1609460700 |} in
  (exists st',
      fst (SatisfactionRatings.body config_default now_2021 late_api bookmark
             (locals_2020 SatisfactionRatings.self 3600 start))
      = [SatisfactionQuery 1609458200 1609459200; Yield rating; WriteState st'])
  /\ 1609459200 < updated_at rating
  /\ List.filter is_Yield
       (fst (Users.body config_default now_2021 late_api
               (locals_2020 Users.self 3600 start))) = [].
Proof.
  intros bookmark start rating. split; [|split].
  - eexists. vm_compute. reflexivity.
  - reflexivity.
  - vm_compute. reflexivity.
Qed.

(** ** Over the cap *)

Section over_cap.
Variable config : Config.
Variable now : Z.
Variable api : nat -> Z -> Z -> SearchResult.

(** [Users.sync]: the window is halved, never below one second, the start
    and the state are kept and nothing is yielded; at one second (or less)
    the pass raises. *)
Lemma users_over_cap (l : locals) :
  1000 < count (api (requests l) (Users.parsed_start l) (Users.parsed_end now l)) ->
  (1 < search_window_size l ->
     exists l',
       Users.body config now api l
       = ([Search (Users.parsed_start l) (Users.parsed_end now l)], Ok l')
       /\ search_window_size l' = search_window_size l / 2
       /\ 1 <= search_window_size l'
       /\ start l' = start l
       /\ end_ l' = start l + timedelta (search_window_size l')
       /\ state l' = state l)
  /\ (search_window_size l <= 1 ->
        exists msg,
          Users.body config now api l
          = ([Search (Users.parsed_start l) (Users.parsed_end now l)],
             Raise (Exception_ msg))).
Proof.
  intros Hcount. unfold Users.body.
  destruct (Z.ltb_spec 1000 (count (api (requests l) (Users.parsed_start l)
                                      (Users.parsed_end now l)))); [|lia].
  split; intros Hsize.
  - destruct (Z.ltb_spec 1 (search_window_size l)); [|lia].
    eexists. split; [reflexivity|]. simpl.
    repeat split. Z.div_mod_to_equations. lia.
  - destruct (Z.ltb_spec 1 (search_window_size l)); [lia|].
    eexists. reflexivity.
Qed.

(** [SatisfactionRatings.sync]: the window is halved whatever its size, and
    the pass never raises. *)
Lemma ratings_over_cap (bookmark : Z) (l : locals) :
  50000 < count (api (requests l) (SatisfactionRatings.epoch_start l)
                   (Z.min (SatisfactionRatings.epoch_end l)
                      (SatisfactionRatings.epoch_sync_end now))) ->
  exists l',
    SatisfactionRatings.body config now api bookmark l
    = ([SatisfactionQuery (SatisfactionRatings.epoch_start l)
          (Z.min (SatisfactionRatings.epoch_end l)
             (SatisfactionRatings.epoch_sync_end now))], Ok l')
    /\ search_window_size l' = search_window_size l / 2
    /\ start l' = start l
    /\ end_ l' = start l + timedelta (search_window_size l')
    /\ state l' = state l.
Proof.
  intros Hcount. unfold SatisfactionRatings.body.
  destruct (Z.ltb_spec 50000
              (count (api (requests l) (SatisfactionRatings.epoch_start l)
                        (Z.min (SatisfactionRatings.epoch_end l)
                           (SatisfactionRatings.epoch_sync_end now))))); [|lia].
  eexists. split; [reflexivity|]. simpl. repeat split.
Qed.

Lemma ratings_over_cap_forever (bookmark : Z) :
  (forall n a b, 50000 < count (api n a b)) ->
  forall (fuel : nat) (l : locals),
    start l < SatisfactionRatings.sync_end now ->
    snd (SatisfactionRatings.loop config now api bookmark fuel l) = OutOfFuel.
Proof.
  intros Hflood. induction fuel as [|fuel IH]; intros l Hlt; [reflexivity|].
  cbn [SatisfactionRatings.loop].
  destruct (Z.ltb_spec (start l) (SatisfactionRatings.sync_end now)); [|lia].
  destruct (ratings_over_cap bookmark l (Hflood _ _ _))
    as (l' & -> & _ & Hstart & _).
  specialize (IH l'). rewrite Hstart in IH. specialize (IH Hlt).
  destruct (SatisfactionRatings.loop config now api bookmark fuel l').
  exact IH.
Qed.

End over_cap.

(** C2.  [SatisfactionRatings.sync] has no one-second floor.  Entered with a
    window of one second and an answer over the cap of 50000, the pass sets
    the window size to zero (so the window end is its start) and continues;
    as long as the answers stay over the cap the loop goes on asking and
    never raises.  [Users.sync], on the same input, raises. *)
Theorem satisfaction_ratings_no_floor :
  let bookmark := strptime_with_tz 1577836800 in
  SatisfactionRatings.body config_one_second now_2021 flooded_api bookmark
    (locals_2020 SatisfactionRatings.self 1 bookmark)
  = ([SatisfactionQuery 1577836800 1577836801],
     Ok {| state := state_2020 SatisfactionRatings.self;
           search_window_size := 0;
           start := bookmark;
           end_ := bookmark;
           num_retries := 0;
           requests := 1 |})
  /\ (forall fuel : nat,
        snd (SatisfactionRatings.sync config_default now_2021 flooded_api fuel
               (state_2020 SatisfactionRatings.self)) = OutOfFuel)
  /\ snd (Users.body config_one_second now_2021 flooded_api
            (locals_2020 Users.self 1 bookmark))
     = Raise (Exception_ "users - Unable to get all users within minimum window of a single second").
Proof.
  intros bookmark. split; [|split].
  - reflexivity.
  - intros fuel. unfold SatisfactionRatings.sync, state_2020.
    rewrite get_write_bookmark.
    apply ratings_over_cap_forever.
    + intros n a b. reflexivity.
    + reflexivity.
  - reflexivity.
Qed.

(** ** Termination of the window loops *)

Section termination.
Variable config : Config.
Variable now : Z.
Variable api : nat -> Z -> Z -> SearchResult.

Lemma users_loop_S (fuel : nat) (l : locals) :
  Users.loop config now api (S fuel) l
  = if start l <? Users.sync_end now then
      match Users.body config now api l with
      | (evs, Ok l') =>
          let '(evs', o) := Users.loop config now api fuel l' in (evs ++ evs', o)
      | (evs, Raise e) => (evs, Raised e)
      end
    else ([], Done l).
Proof. reflexivity. Qed.

Lemma ratings_loop_S (bookmark : Z) (fuel : nat) (l : locals) :
  SatisfactionRatings.loop config now api bookmark (S fuel) l
  = if start l <? SatisfactionRatings.sync_end now then
      match SatisfactionRatings.body config now api bookmark l with
      | (evs, Ok l') =>
          let '(evs', o) :=
            SatisfactionRatings.loop config now api bookmark fuel l' in
          (evs ++ evs', o)
      | (evs, Raise e) => (evs, Raised e)
      end
    else ([], Done l).
Proof. reflexivity. Qed.

Lemma users_loop_terminates :
  2 <= Users.original_search_window_size config ->
  (forall n a b, consistent 1000 a (api n a b)) ->
  forall (n : nat) (l : locals),
    search_window_size l = Users.original_search_window_size config ->
    end_ l = start l + timedelta (search_window_size l) ->
    (exists current, get_bookmark Users.self (state l) = Ok current) ->
    Users.sync_end now - start l <= Z.of_nat n * 1000000 ->
    exists evs l',
      Users.loop config now api (S n) l = (evs, Done l')
      /\ Users.sync_end now <= start l'.
Proof.
  intros Hsize Hok.
  induction n as [|n IH]; intros l Hw Hend [current Hget] Hdist;
    rewrite users_loop_S;
    destruct (Z.ltb_spec (start l) (Users.sync_end now)) as [Hlt|Hge];
    try (exists [], l; split; [reflexivity|lia]); [lia|].
  destruct (body_pass config now api l current (Hok _ _ _) Hget)
    as (evs & l' & -> & _ & Hstart' & Hend' & Hw' & _ & Hget').
  assert (Hkeep : search_window_size l' = search_window_size l).
  { rewrite Hw'. destruct (Z.leb_spec (search_window_size l)
                             (Users.original_search_window_size config / 2));
      [|reflexivity].
    rewrite Hw in *. Z.div_mod_to_equations. lia. }
  destruct (IH l') as (evs' & l'' & Hloop & Hdone).
  - now rewrite Hkeep.
  - exact Hend'.
  - exact Hget'.
  - rewrite Hstart', Hend. unfold timedelta. lia.
  - rewrite Hloop. now exists (evs ++ evs'), l''.
Qed.

Lemma each_rating_consistent (bookmark : Z) (l : locals) (ratings : list Row) :
  (forall row, In row ratings ->
     SatisfactionRatings.parsed_start l <= updated_at row) ->
  forall (st : State) (current : Z),
    get_bookmark SatisfactionRatings.self st = Ok current ->
    exists evs st' current',
      SatisfactionRatings.each_rating bookmark l ratings st = (evs, Ok st')
      /\ get_bookmark SatisfactionRatings.self st' = Ok current'.
Proof.
  induction ratings as [|rating rest IH]; intros Hall st current Hget; simpl.
  - now exists [], st, current.
  - destruct (Z.leb_spec (SatisfactionRatings.parsed_start l) (updated_at rating))
      as [_|Hlt]; [|specialize (Hall rating (or_introl eq_refl)); lia].
    assert (Hadv : exists st1 c1,
               (if (bookmark <? strptime_with_tz (updated_at rating))
                   && (strptime_with_tz (updated_at rating) <=? end_ l)
                then update_bookmark SatisfactionRatings.self st
                       (Some (updated_at rating))
                else Ok st) = Ok st1
               /\ get_bookmark SatisfactionRatings.self st1 = Ok c1).
    { destruct (_ && _).
      - destruct (update_bookmark_Ok SatisfactionRatings.self st
                    (Some (updated_at rating)) current Hget)
          as (st1 & c1 & Hup & Hget1 & _).
        now exists st1, c1.
      - now exists st, current. }
    destruct Hadv as (st1 & c1 & -> & Hget1).
    destruct (IH (fun row Hin => Hall row (or_intror Hin)) st1 c1 Hget1)
      as (evs & st' & c' & -> & Hget').
    eexists _, st', c'. split; [reflexivity|exact Hget'].
Qed.

Lemma ratings_body_pass (bookmark : Z) (l : locals) (current : Z) :
  consistent 50000 (SatisfactionRatings.parsed_start l)
    (api (requests l) (SatisfactionRatings.epoch_start l)
       (Z.min (SatisfactionRatings.epoch_end l)
          (SatisfactionRatings.epoch_sync_end now))) ->
  get_bookmark SatisfactionRatings.self (state l) = Ok current ->
  exists evs l',
    SatisfactionRatings.body config now api bookmark l = (evs, Ok l')
    /\ start l' = end_ l - timedelta 1
    /\ end_ l' = start l' + timedelta (search_window_size l')
    /\ search_window_size l'
       = (if search_window_size l
             <=? SatisfactionRatings.original_search_window_size config / 2
          then search_window_size l * 2 else search_window_size l)
    /\ exists current',
         get_bookmark SatisfactionRatings.self (state l') = Ok current'.
Proof.
  intros [Hcap Hall] Hget. unfold SatisfactionRatings.body.
  destruct (Z.ltb_spec 50000
              (count (api (requests l) (SatisfactionRatings.epoch_start l)
                        (Z.min (SatisfactionRatings.epoch_end l)
                           (SatisfactionRatings.epoch_sync_end now)))));
    [lia|].
  destruct (each_rating_consistent bookmark l _ Hall (state l) current Hget)
    as (evs & st' & c' & -> & Hget').
  eexists _, _. split; [reflexivity|]. simpl. eauto 10.
Qed.

Lemma ratings_loop_terminates (bookmark : Z) :
  2 <= SatisfactionRatings.original_search_window_size config ->
  (forall n a b, consistent 50000 a (api n a b)) ->
  forall (n : nat) (l : locals),
    search_window_size l = SatisfactionRatings.original_search_window_size config ->
    end_ l = start l + timedelta (search_window_size l) ->
    (exists current,
        get_bookmark SatisfactionRatings.self (state l) = Ok current) ->
    SatisfactionRatings.sync_end now - start l <= Z.of_nat n * 1000000 ->
    exists evs l',
      SatisfactionRatings.loop config now api bookmark (S n) l = (evs, Done l')
      /\ SatisfactionRatings.sync_end now <= start l'.
Proof.
  intros Hsize Hok.
  induction n as [|n IH]; intros l Hw Hend [current Hget] Hdist;
    rewrite ratings_loop_S;
    destruct (Z.ltb_spec (start l) (SatisfactionRatings.sync_end now))
      as [Hlt|Hge];
    try (exists [], l; split; [reflexivity|lia]); [lia|].
  destruct (ratings_body_pass bookmark l current (Hok _ _ _) Hget)
    as (evs & l' & -> & Hstart' & Hend' & Hw' & Hget').
  assert (Hkeep : search_window_size l' = search_window_size l).
  { rewrite Hw'.
    destruct (Z.leb_spec (search_window_size l)
                (SatisfactionRatings.original_search_window_size config / 2));
      [|reflexivity].
    rewrite Hw in *. Z.div_mod_to_equations. lia. }
  destruct (IH l') as (evs' & l'' & Hloop & Hdone).
  - now rewrite Hkeep.
  - exact Hend'.
  - exact Hget'.
  - rewrite Hstart', Hend. unfold timedelta. lia.
  - rewrite Hloop. now exists (evs ++ evs'), l''.
Qed.

End termination.

(** With a window of at least two seconds and every
    query answered within the cap and consistently, the window loops of
    [Users.sync] and [SatisfactionRatings.sync] come to an end from any
    bookmark, and they end with [start] at or after [sync_end] (now minus one
    minute). *)
Theorem window_loops_terminate (config : Config) (now : Z)
    (api : nat -> Z -> Z -> SearchResult) (st : State) (bookmark : Z) :
  2 <= default DEFAULT_SEARCH_WINDOW_SIZE (cfg_search_window_size config) ->
  (get_bookmark Users.self st = Ok bookmark ->
   (forall n a b, consistent 1000 a (api n a b)) ->
   exists fuel evs l',
     Users.sync config now api fuel st = (evs, Done l')
     /\ Users.sync_end now <= start l')
  /\ (get_bookmark SatisfactionRatings.self st = Ok bookmark ->
      (forall n a b, consistent 50000 a (api n a b)) ->
      exists fuel evs l',
        SatisfactionRatings.sync config now api fuel st = (evs, Done l')
        /\ SatisfactionRatings.sync_end now <= start l').
Proof.
  intros Hsize. split; intros Hget Hok.
  - set (n := Z.to_nat (Users.sync_end now - (bookmark - timedelta 1))).
    exists (S n). unfold Users.sync. rewrite Hget.
    apply users_loop_terminates; simpl; try done; [eauto|lia].
  - set (n := Z.to_nat (SatisfactionRatings.sync_end now - bookmark)).
    exists (S n). unfold SatisfactionRatings.sync. rewrite Hget.
    apply ratings_loop_terminates; simpl; try done; [eauto|lia].
Qed.

Lemma empty_api_consistent (cap : Z) :
  0 <= cap -> forall n a b, consistent cap a (empty_api n a b).
Proof. intros Hcap n a b. split; [exact Hcap|]. intros row []. Qed.

Lemma window_loops_terminate_witness :
  (exists fuel evs l',
      Users.sync config_default now_2021 empty_api fuel (state_2020 Users.self)
      = (evs, Done l')
      /\ Users.sync_end now_2021 <= start l')
  /\ (exists fuel evs l',
        SatisfactionRatings.sync config_default now_2021 empty_api fuel
          (state_2020 SatisfactionRatings.self)
        = (evs, Done l')
        /\ SatisfactionRatings.sync_end now_2021 <= start l').
Proof.
  split.
  - apply (window_loops_terminate config_default now_2021 empty_api
             (state_2020 Users.self) (strptime_with_tz 1577836800)).
    + vm_compute. discriminate.
    + apply get_write_bookmark.
    + apply empty_api_consistent. lia.
  - apply (window_loops_terminate config_default now_2021 empty_api
             (state_2020 SatisfactionRatings.self) (strptime_with_tz 1577836800)).
    + vm_compute. discriminate.
    + apply get_write_bookmark.
    + apply empty_api_consistent. lia.
Defined.

Lemma users_one_second_stuck (config : Config) (now : Z)
    (api : nat -> Z -> Z -> SearchResult) :
  Users.original_search_window_size config = 1 ->
  (forall n a b, consistent 1000 a (api n a b)) ->
  forall (fuel : nat) (l : locals),
    search_window_size l = 1 ->
    end_ l = start l + timedelta 1 ->
    start l < Users.sync_end now ->
    (exists current, get_bookmark Users.self (state l) = Ok current) ->
    snd (Users.loop config now api fuel l) = OutOfFuel.
Proof.
  intros Horig Hok. induction fuel as [|fuel IH];
    intros l Hw Hend Hlt [current Hget]; [reflexivity|].
  rewrite users_loop_S.
  destruct (Z.ltb_spec (start l) (Users.sync_end now)); [|lia].
  destruct (body_pass config now api l current (Hok _ _ _) Hget)
    as (evs & l' & -> & _ & Hstart' & Hend' & Hw' & _ & Hget').
  rewrite Hw, Horig in Hw'. change (1 <=? 1 / 2) with false in Hw'.
  specialize (IH l'). rewrite Hw' in *.
  assert (Hsame : start l' = start l) by (rewrite Hstart', Hend; lia).
  rewrite Hsame in *.
  specialize (IH eq_refl Hend' Hlt Hget').
  destruct (Users.loop config now api fuel l'). exact IH.
Qed.

(** C5.  With the window configured to one second, the minimum the code
    itself names, [start = end - 1s] is the old [start]: every answer is
    within the cap and consistent, the bookmark is before [sync_end], and the
    loop of [Users.sync] is still running after any number of iterations. *)
Lemma users_one_second_window_never_ends :
  (forall n a b, consistent 1000 a (empty_api n a b))
  /\ get_bookmark Users.self (state_2020 Users.self)
     = Ok (strptime_with_tz 1577836800)
  /\ strptime_with_tz 1577836800 < Users.sync_end now_2021
  /\ forall fuel : nat,
       snd (Users.sync config_one_second now_2021 empty_api fuel
              (state_2020 Users.self)) = OutOfFuel.
Proof.
  split; [apply empty_api_consistent; lia|].
  split; [apply get_write_bookmark|].
  split; [reflexivity|].
  intros fuel. unfold Users.sync, state_2020.
  rewrite get_write_bookmark.
  apply (users_one_second_stuck config_one_second now_2021 empty_api eq_refl
           (empty_api_consistent 1000 ltac:(lia)));
    [reflexivity|reflexivity|reflexivity|].
  eexists. apply get_write_bookmark.
Qed.

(** ** Child expansion *)

Lemma fetches_app {R : Type} (i : Z) (a b : list (event R)) :
  fetches i (a ++ b) = (fetches i a + fetches i b)%nat.
Proof. unfold fetches. now rewrite List.filter_app, length_app. Qed.

Lemma fetches_cons_fetch {R : Type} (i j : Z) (evs : list (event R)) :
  fetches i (ChildFetch j :: evs)
  = ((if (i =? j)%Z then 1 else 0) + fetches i evs)%nat.
Proof. unfold fetches. simpl. now destruct (i =? j). Qed.

Lemma fetches_zero_not_in {R : Type} (i : Z) (evs : list (event R)) :
  fetches i evs = O <-> ~ In (ChildFetch i) evs.
Proof.
  induction evs as [|e evs IH]; simpl; [tauto|].
  destruct e as [| |j| | | |];
    try (change (fetches i (_ :: evs)) with (fetches i evs);
         rewrite IH; intuition discriminate).
  rewrite fetches_cons_fetch. destruct (Z.eqb_spec i j) as [->|Hne].
  - split; [discriminate|]. intros Hnot. exfalso. apply Hnot. now left.
  - simpl. rewrite IH. split.
    + intros Hnot [[= ->]|Hin]; [now apply Hne|now apply Hnot].
    + intros Hnot Hin. apply Hnot. now right.
Qed.

Lemma push_ticket_child_fetches (self : Stream) (st : State) (ticket : Ticket)
    (c : Child) (i : Z) :
  fetches i (fst (Tickets.push_ticket_child self st ticket c)) = O.
Proof.
  unfold Tickets.push_ticket_child. now destruct (update_bookmark _ _ _).
Qed.

Lemma push_ticket_children_fetches (self : Stream) (ticket : Ticket)
    (children : list Child) (i : Z) :
  forall st : State,
    fetches i (fst (Tickets.push_ticket_children self st ticket children)) = O.
Proof.
  induction children as [|c rest IH]; intros st; simpl; [reflexivity|].
  pose proof (push_ticket_child_fetches self st ticket c i) as Hone.
  destruct (Tickets.push_ticket_child self st ticket c) as [evs [st'|e]];
    simpl in *; [|exact Hone].
  specialize (IH st').
  destruct (Tickets.push_ticket_children self st' ticket rest) as [evs' r].
  simpl in *. rewrite fetches_app. lia.
Qed.

Lemma run_children_events (st : State) (self : Stream)
    (run : State -> list (event ChildDict) * result State) :
  fst (run_children st self run) = []
  \/ fst (run_children st self run) = fst (run st).
Proof.
  unfold run_children. destruct (get_bookmark self st); [|now left].
  right. now destruct (run st) as [evs [st'|e]].
Qed.

Section guarded.
Variable self : Stream.
Variable fetch : Z -> result (list Child).

Lemma guarded_fetches_once (i : Z) (tickets : list Ticket) :
  forall (ids : list Z) (st : State),
    (i ∈ ids ->
     fetches i (fst (guarded_children_loop self fetch tickets ids st)) = O)
    /\ (fetches i (fst (guarded_children_loop self fetch tickets ids st)) <= 1)%nat.
Proof.
  induction tickets as [|ticket rest IH]; intros ids st; simpl;
    [split; [reflexivity|unfold fetches; simpl; lia]|].
  destruct (deleted ticket); simpl; [apply IH|].
  unfold seen. case_bool_decide as Hseen; simpl; [apply IH|].
  assert (Hnew : i ∈ ids -> (i =? ticket_id ticket) = false).
  { intros Hin. apply Z.eqb_neq. intros ->. now apply Hseen. }
  destruct (fetch (ticket_id ticket)) as [children|e]; simpl.
  - pose proof (push_ticket_children_fetches self ticket children i st) as Hpush.
    destruct (Tickets.push_ticket_children self st ticket children)
      as [evs [st'|e]]; simpl in *.
    + destruct (IH (ids ++ [ticket_id ticket]) st') as [IHin IHle].
      destruct (guarded_children_loop self fetch rest _ st') as [evs' r].
      simpl in *. rewrite fetches_cons_fetch, fetches_app, Hpush.
      destruct (Z.eqb_spec i (ticket_id ticket)) as [->|Hne].
      * rewrite IHin by (apply elem_of_app; right; apply list_elem_of_singleton;
                         reflexivity).
        split; [intros Hin; now apply Hseen in Hin|lia].
      * split; [|simpl; lia].
        intros Hin. simpl. apply IHin. apply elem_of_app. now left.
    + rewrite fetches_cons_fetch, Hpush.
      split; [intros Hin; now rewrite (Hnew Hin)|].
      destruct (i =? ticket_id ticket); simpl; lia.
  - rewrite fetches_cons_fetch. change (fetches i []) with O.
    split; [intros Hin; now rewrite (Hnew Hin)|].
    destruct (i =? ticket_id ticket); simpl; lia.
Qed.

Lemma guarded_fetch_undeleted (i : Z) (tickets : list Ticket) :
  forall (ids : list Z) (st : State),
    In (ChildFetch i) (fst (guarded_children_loop self fetch tickets ids st)) ->
    exists ticket,
      In ticket tickets /\ ticket_id ticket = i
      /\ status ticket <> "deleted"%string.
Proof.
  induction tickets as [|ticket rest IH]; intros ids st; simpl; [tauto|].
  assert (Hrest : forall ids' st',
             In (ChildFetch i)
               (fst (guarded_children_loop self fetch rest ids' st')) ->
             exists t, (ticket = t \/ In t rest) /\ ticket_id t = i
                       /\ status t <> "deleted"%string).
  { intros ids' st' Hin. destruct (IH ids' st' Hin) as (t & Ht & Hid & Hst).
    exists t. auto. }
  unfold deleted. case_bool_decide as Hdel; simpl; [apply Hrest|].
  destruct (seen ticket ids); simpl; [apply Hrest|].
  assert (Hhere : ChildFetch (R := ChildDict) (ticket_id ticket) = ChildFetch i ->
            exists t, (ticket = t \/ In t rest) /\ ticket_id t = i
                      /\ status t <> "deleted"%string).
  { intros [= <-]. exists ticket. auto. }
  destruct (fetch (ticket_id ticket)) as [children|e]; simpl.
  - pose proof (push_ticket_children_fetches self ticket children i st) as Hpush.
    apply fetches_zero_not_in in Hpush.
    destruct (Tickets.push_ticket_children self st ticket children)
      as [evs [st'|e]]; simpl in *.
    + specialize (Hrest (ids ++ [ticket_id ticket]) st').
      destruct (guarded_children_loop self fetch rest _ st') as [evs' r].
      simpl in *. intros [Heq|Hin]; [auto|].
      apply in_app_or in Hin as [Hin|Hin]; [contradiction|auto].
    + intros [Heq|Hin]; [auto|contradiction].
  - intros [Heq|[]]. auto.
Qed.

End guarded.

Section metrics.
Variable metrics : Z -> result Child.

Lemma metrics_loop_cons_new (ticket : Ticket) (rest : list Ticket)
    (ids : list Z) (st : State) :
  seen ticket ids = false ->
  exists evs st',
    TicketMetrics.loop metrics (ticket :: rest) ids st
    = (let '(evs', r) :=
         TicketMetrics.loop metrics rest (ids ++ [ticket_id ticket]) st' in
       (ChildFetch (ticket_id ticket) :: evs ++ evs', r))
    /\ (forall i, fetches i evs = O)
    /\ (forall e, metrics (ticket_id ticket) = Raise e ->
          evs = [Warning "Ticket not found"] /\ st' = st).
Proof.
  intros Hseen. cbn [TicketMetrics.loop]. rewrite Hseen. cbn [negb].
  destruct (metrics (ticket_id ticket)) as [metric|e].
  - pose proof (fun i => push_ticket_child_fetches TicketMetrics.self st ticket
                           metric i) as Hpush.
    destruct (Tickets.push_ticket_child TicketMetrics.self st ticket metric)
      as [evs [st'|e]]; simpl in Hpush.
    + exists evs, st'. split; [|split; [exact Hpush|discriminate]].
      now destruct (TicketMetrics.loop metrics rest _ st').
    + exists (evs ++ [Warning "Ticket not found"]), st.
      split; [|split; [|discriminate]].
      * now destruct (TicketMetrics.loop metrics rest _ st).
      * intros i. rewrite fetches_app, Hpush. reflexivity.
  - exists [Warning "Ticket not found"], st.
    split; [|split; [reflexivity|auto]].
    now destruct (TicketMetrics.loop metrics rest _ st).
Qed.

Lemma metrics_loop_Ok (tickets : list Ticket) :
  forall (ids : list Z) (st : State),
    exists evs st', TicketMetrics.loop metrics tickets ids st = (evs, Ok st').
Proof.
  induction tickets as [|ticket rest IH]; intros ids st; [now exists [], st|].
  destruct (seen ticket ids) eqn:Hseen.
  - cbn [TicketMetrics.loop]. rewrite Hseen. apply IH.
  - destruct (metrics_loop_cons_new ticket rest ids st Hseen)
      as (evs & st' & -> & _).
    destruct (IH (ids ++ [ticket_id ticket]) st') as (evs' & st'' & ->).
    now eexists _, _.
Qed.

Lemma metrics_fetches (i : Z) (tickets : list Ticket) :
  forall (ids : list Z) (st : State),
    fetches i (fst (TicketMetrics.loop metrics tickets ids st))
    = if bool_decide (i ∈ ids) then O
      else if bool_decide (i ∈ map ticket_id tickets) then 1%nat else O.
Proof.
  induction tickets as [|ticket rest IH]; intros ids st.
  - cbn [TicketMetrics.loop fst map]. change (fetches i []) with O.
    destruct (bool_decide (i ∈ ids)); [reflexivity|].
    now rewrite bool_decide_eq_false_2 by apply not_elem_of_nil.
  - destruct (seen ticket ids) eqn:Hseen.
    + cbn [TicketMetrics.loop]. rewrite Hseen. cbn [negb]. rewrite IH.
      unfold seen in Hseen. apply bool_decide_eq_true in Hseen.
      destruct (decide (i ∈ ids)) as [Hi|Hi].
      * now rewrite !(bool_decide_eq_true_2 _ Hi).
      * rewrite !(bool_decide_eq_false_2 _ Hi).
        rewrite (bool_decide_ext (i ∈ map ticket_id (ticket :: rest))
                   (i ∈ map ticket_id rest)); [reflexivity|].
        cbn [map]. rewrite elem_of_cons. split; [|auto].
        intros [->|Hin]; [contradiction|exact Hin].
    + destruct (metrics_loop_cons_new ticket rest ids st Hseen)
        as (evs & st' & -> & Hevs & _).
      specialize (IH (ids ++ [ticket_id ticket]) st').
      destruct (TicketMetrics.loop metrics rest _ st') as [evs' r].
      simpl in IH. cbn [fst].
      rewrite fetches_cons_fetch, fetches_app, Hevs, IH.
      unfold seen in Hseen. apply bool_decide_eq_false in Hseen.
      destruct (Z.eqb_spec i (ticket_id ticket)) as [->|Hne].
      * rewrite (bool_decide_eq_true_2 (ticket_id ticket ∈ ids ++ _))
          by (apply elem_of_app; right; now apply list_elem_of_singleton).
        rewrite (bool_decide_eq_false_2 _ Hseen).
        rewrite (bool_decide_eq_true_2
                   (ticket_id ticket ∈ map ticket_id (ticket :: rest)))
          by (cbn [map]; apply elem_of_cons; now left).
        reflexivity.
      * rewrite (bool_decide_ext (i ∈ ids ++ [ticket_id ticket]) (i ∈ ids)).
        2:{ rewrite elem_of_app, list_elem_of_singleton. intuition. }
        rewrite (bool_decide_ext (i ∈ map ticket_id (ticket :: rest))
                   (i ∈ map ticket_id rest)).
        2:{ cbn [map]. rewrite elem_of_cons. intuition. }
        reflexivity.
Qed.

End metrics.

Lemma push_ticket_child_bookmark (self : Stream) (st : State) (ticket : Ticket)
    (c : Child) (current : Z) :
  get_bookmark self st = Ok current ->
  current < utcfromtimestamp (generated_timestamp ticket) + timedelta 1 ->
  exists st',
    Tickets.push_ticket_child self st ticket c
    = ([Yield {| child := c;
                 ticket_generated_timestamp := generated_timestamp ticket |}],
       Ok st')
    /\ get_bookmark self st'
       = Ok (utcfromtimestamp (generated_timestamp ticket) + timedelta 2).
Proof.
  intros Hget Hlt. unfold Tickets.push_ticket_child, update_bookmark.
  rewrite Hget.
  destruct (Z.ltb_spec current
              (strptime_with_tz
                 (utils_strftime
                    (utcfromtimestamp (generated_timestamp ticket) + timedelta 1))))
    as [_|Hge]; [|time_lia].
  eexists. split; [reflexivity|].
  rewrite get_write_bookmark. f_equal. time_lia.
Qed.

(** C6.  The scenario of the spec, run on the code: parent 42 with
    [generated_timestamp] 1609459200 (2021-01-01T00:00:00Z), not deleted, one
    child.  One child fetch is issued for ticket 42, in each of the three
    child streams; the bookmark of the child stream afterwards is
    1609459202, that is 2021-01-01T00:00:02Z: [push_ticket_child] adds one
    second and [update_bookmark] adds another. *)
Theorem child_bookmark_of_parent_42 :
  (exists evs st',
      TicketAudits.sync [ticket_42] one_child (state_2020 TicketAudits.self)
      = (evs, Done st')
      /\ fetches 42 evs = 1%nat
      /\ singer_get_bookmark st' "ticket_audits" "ticket_generated_timestamp"
         = Some 1609459202)
  /\ (exists evs st',
        TicketComments.sync [ticket_42] one_child (state_2020 TicketComments.self)
        = (evs, Done st')
        /\ fetches 42 evs = 1%nat
        /\ singer_get_bookmark st' "ticket_comments" "ticket_generated_timestamp"
           = Some 1609459202)
  /\ (exists evs st',
        TicketMetrics.sync [ticket_42] one_metric (state_2020 TicketMetrics.self)
        = (evs, Done st')
        /\ fetches 42 evs = 1%nat
        /\ singer_get_bookmark st' "ticket_metrics" "ticket_generated_timestamp"
           = Some 1609459202).
Proof.
  repeat split; eexists _, _; (split; [vm_compute; reflexivity|]);
    split; vm_compute; reflexivity.
Qed.

(** C7, as the code has it.  In [TicketAudits.sync] and
    [TicketComments.sync] every child fetch is for a listed ticket that is
    not deleted; so a parent id whose listed records are all deleted is never
    fetched. *)
Theorem deleted_parent_no_child_fetch (tickets : list Ticket)
    (audits comments : Z -> result (list Child)) (st : State) (i : Z) :
  (forall ticket,
      In ticket tickets -> ticket_id ticket = i ->
      status ticket = "deleted"%string) ->
  fetches i (fst (TicketAudits.sync tickets audits st)) = O
  /\ fetches i (fst (TicketComments.sync tickets comments st)) = O.
Proof.
  intros Hdeleted.
  assert (Hloop : forall self fetch,
             fetches i (fst (guarded_children_loop self fetch tickets [] st)) = O).
  { intros self fetch. apply fetches_zero_not_in. intros Hin.
    apply guarded_fetch_undeleted in Hin as (ticket & Hin & Hid & Hst).
    apply Hst. now apply Hdeleted. }
  split.
  - unfold TicketAudits.sync.
    destruct (run_children_events st TicketAudits.self
                (guarded_children_loop TicketAudits.self audits tickets []))
      as [-> | ->]; [reflexivity|apply Hloop].
  - unfold TicketComments.sync.
    destruct (run_children_events st TicketComments.self
                (guarded_children_loop TicketComments.self comments tickets []))
      as [-> | ->]; [reflexivity|apply Hloop].
Qed.

Lemma deleted_parent_no_child_fetch_witness :
  fetches 7 (fst (TicketAudits.sync [ticket_deleted; ticket_42] one_child
                    (state_2020 TicketAudits.self))) = O
  /\ fetches 7 (fst (TicketComments.sync [ticket_deleted; ticket_42] one_child
                       (state_2020 TicketComments.self))) = O.
Proof.
  split.
  - apply (deleted_parent_no_child_fetch [ticket_deleted; ticket_42]
             one_child one_child (state_2020 TicketAudits.self) 7).
    intros ticket [<-|[<-|[]]]; [reflexivity|discriminate].
  - apply (deleted_parent_no_child_fetch [ticket_deleted; ticket_42]
             one_child one_child (state_2020 TicketComments.self) 7).
    intros ticket [<-|[<-|[]]]; [reflexivity|discriminate].
Defined.

(** C7, as the spec words it, fails for ticket_metrics: [TicketMetrics.sync]
    has no status guard and fetches the metrics of a deleted ticket. *)
Lemma ticket_metrics_fetches_deleted_parent :
  status ticket_deleted = "deleted"%string
  /\ fetches (ticket_id ticket_deleted)
       (fst (TicketMetrics.sync [ticket_deleted] one_metric
               (state_2020 TicketMetrics.self))) = 1%nat.
Proof. split; vm_compute; reflexivity. Qed.

(** [TicketMetrics.sync] never ends by an exception
    of a child fetch: whatever the metrics API answers or raises, the run is
    exhausted normally and the metrics of every listed ticket are requested
    exactly once; a fetch that raises is logged as a warning, yields nothing,
    leaves the state as it was, and the loop goes on with the next ticket. *)
Theorem ticket_metrics_fetch_failure_recovered (tickets : list Ticket)
    (metrics : Z -> result Child) (st : State) (current : Z) :
  get_bookmark TicketMetrics.self st = Ok current ->
  (exists evs st',
      TicketMetrics.sync tickets metrics st = (evs, Done st')
      /\ forall ticket, In ticket tickets ->
           fetches (ticket_id ticket) evs = 1%nat)
  /\ (forall ticket rest ids st0 e,
        seen ticket ids = false ->
        metrics (ticket_id ticket) = Raise e ->
        TicketMetrics.loop metrics (ticket :: rest) ids st0
        = (let '(evs', r) :=
             TicketMetrics.loop metrics rest (ids ++ [ticket_id ticket]) st0 in
           (ChildFetch (ticket_id ticket) :: Warning "Ticket not found" :: evs',
            r))).
Proof.
  intros Hget. split.
  - unfold TicketMetrics.sync, run_children. rewrite Hget.
    pose proof (fun i => metrics_fetches metrics i tickets [] st) as Hfetch.
    destruct (metrics_loop_Ok metrics tickets [] st) as (evs & st' & Hloop).
    rewrite Hloop in *. exists evs, st'. split; [reflexivity|].
    intros ticket Hin. rewrite Hfetch.
    rewrite bool_decide_eq_false_2 by apply not_elem_of_nil.
    rewrite bool_decide_eq_true_2; [reflexivity|].
    apply list_elem_of_In, in_map, Hin.
  - intros ticket rest ids st0 e Hseen Hraise.
    destruct (metrics_loop_cons_new metrics ticket rest ids st0 Hseen)
      as (evs & st' & -> & _ & Hwarn).
    now destruct (Hwarn e Hraise) as [-> ->].
Qed.

Lemma ticket_metrics_fetch_failure_recovered_witness :
  exists evs st',
    TicketMetrics.sync [ticket_42; ticket_43] lost_42_metric
      (state_2020 TicketMetrics.self) = (evs, Done st')
    /\ fetches 43 evs = 1%nat.
Proof.
  destruct (ticket_metrics_fetch_failure_recovered [ticket_42; ticket_43]
              lost_42_metric (state_2020 TicketMetrics.self)
              (strptime_with_tz 1577836800)
              (get_write_bookmark TicketMetrics.self ∅ 1577836800))
    as [(evs & st' & Hsync & Hfetch) _].
  exists evs, st'. split; [exact Hsync|].
  apply (Hfetch ticket_43). right. left. reflexivity.
Defined.

(** C8.  In [TicketAudits.sync] (and [TicketComments.sync], the same loop)
    the child fetch is not inside a handler as it is in
    [TicketMetrics.sync]: the exception of the fetch for the first parent
    ends the run, and the next parent is never fetched. *)
Lemma ticket_audits_fetch_failure_aborts :
  TicketAudits.sync [ticket_42; ticket_43] lost_42
    (state_2020 TicketAudits.self)
  = ([ChildFetch 42], Raised (APIException "RecordNotFound"))
  /\ TicketComments.sync [ticket_42; ticket_43] lost_42
       (state_2020 TicketComments.self)
     = ([ChildFetch 42], Raised (APIException "RecordNotFound")).
Proof. split; vm_compute; reflexivity. Qed.

(** C9.  In a run of any child stream, whatever the listing (in particular
    one in which a parent id comes two or more times) and whatever the API
    answers, the child fetch for a given parent id is issued at most once. *)
Theorem child_fetch_at_most_once (tickets : list Ticket)
    (audits comments : Z -> result (list Child)) (metrics : Z -> result Child)
    (st : State) (i : Z) :
  (fetches i (fst (TicketAudits.sync tickets audits st)) <= 1)%nat
  /\ (fetches i (fst (TicketComments.sync tickets comments st)) <= 1)%nat
  /\ (fetches i (fst (TicketMetrics.sync tickets metrics st)) <= 1)%nat.
Proof.
  split; [|split].
  - unfold TicketAudits.sync.
    destruct (run_children_events st TicketAudits.self
                (guarded_children_loop TicketAudits.self audits tickets []))
      as [-> | ->]; [unfold fetches; simpl; lia|].
    apply guarded_fetches_once.
  - unfold TicketComments.sync.
    destruct (run_children_events st TicketComments.self
                (guarded_children_loop TicketComments.self comments tickets []))
      as [-> | ->]; [unfold fetches; simpl; lia|].
    apply guarded_fetches_once.
  - unfold TicketMetrics.sync.
    destruct (run_children_events st TicketMetrics.self
                (TicketMetrics.loop metrics tickets []))
      as [-> | ->]; [unfold fetches; simpl; lia|].
    rewrite metrics_fetches. repeat case_bool_decide; lia.
Qed.

(** ** Group memberships *)

Lemma memberships_each (bookmark : Z) (membership : GroupMembership)
    (st : State) (current : Z) :
  get_bookmark GroupMemberships.self st = Ok current ->
  exists st' current',
    GroupMemberships.each bookmark membership st
    = ((if synced bookmark membership then [Yield membership] else []), Ok st')
    /\ get_bookmark GroupMemberships.self st' = Ok current'
    /\ (truthy_string (membership_updated_at membership) = None -> st' = st).
Proof.
  intros Hget. unfold GroupMemberships.each, synced.
  destruct (membership_updated_at membership) as [| |u]; cbn [truthy_string].
  - exists st, current.
    destruct (truthy (membership_id membership));
      (split; [reflexivity|]; split; [exact Hget|reflexivity]).
  - exists st, current.
    destruct (truthy (membership_id membership));
      (split; [reflexivity|]; split; [exact Hget|reflexivity]).
  - destruct (bookmark <=? strptime_with_tz u).
    + destruct (update_bookmark_Ok GroupMemberships.self st (Some u) current Hget)
        as (st' & c' & -> & Hget' & _).
      exists st', c'. split; [reflexivity|]. split; [exact Hget'|discriminate].
    + exists st, current. split; [reflexivity|]. split; [exact Hget|discriminate].
Qed.

Lemma memberships_loop (bookmark : Z) (memberships : list GroupMembership) :
  forall (st : State) (current : Z),
    get_bookmark GroupMemberships.self st = Ok current ->
    exists st',
      GroupMemberships.loop bookmark memberships st
      = (map Yield (List.filter (synced bookmark) memberships), Ok st').
Proof.
  induction memberships as [|membership rest IH]; intros st current Hget;
    [now exists st|].
  cbn [GroupMemberships.loop List.filter].
  destruct (memberships_each bookmark membership st current Hget)
    as (st1 & c1 & -> & Hget1 & _).
  destruct (IH st1 c1 Hget1) as (st' & ->).
  exists st'. now destruct (synced bookmark membership).
Qed.

(** C10, as the code has it.  In [GroupMemberships.sync], with [bookmark]
    the value read before the listing: the run yields exactly the listed
    records that pass [synced], in order.  A record whose [updated_at] is
    falsy (null or the empty string) and whose id is truthy (neither null
    nor zero) is yielded whatever the bookmark and leaves the state as it
    was; one whose [updated_at] is falsy and whose id is falsy (null or
    zero) yields nothing and leaves the state as it was; one whose
    [updated_at] is a timestamp is yielded if and only if that is at or
    after [bookmark]. *)
Theorem group_memberships_filter (memberships : list GroupMembership)
    (st : State) (bookmark : Z) :
  get_bookmark GroupMemberships.self st = Ok bookmark ->
  (exists st',
      GroupMemberships.sync memberships st
      = (map Yield (List.filter (synced bookmark) memberships), Done st'))
  /\ (forall membership b st0,
        membership_updated_at membership = Null
        \/ membership_updated_at membership = Empty ->
        truthy (membership_id membership) = true ->
        GroupMemberships.each b membership st0 = ([Yield membership], Ok st0))
  /\ (forall membership b st0,
        membership_updated_at membership = Null
        \/ membership_updated_at membership = Empty ->
        membership_id membership = None \/ membership_id membership = Some 0 ->
        GroupMemberships.each b membership st0 = ([], Ok st0))
  /\ (forall membership updated_at st0 current,
        membership_updated_at membership = Timestamp updated_at ->
        get_bookmark GroupMemberships.self st0 = Ok current ->
        (In (Yield membership)
           (fst (GroupMemberships.each bookmark membership st0))
         <-> bookmark <= strptime_with_tz updated_at)).
Proof.
  intros Hget. split; [|split; [|split]].
  - unfold GroupMemberships.sync. rewrite Hget.
    destruct (memberships_loop bookmark memberships st bookmark Hget)
      as (st' & ->).
    now exists st'.
  - intros membership b st0 Hfalsy Hid. unfold GroupMemberships.each.
    destruct Hfalsy as [-> | ->]; cbn [truthy_string]; now rewrite Hid.
  - intros membership b st0 Hfalsy Hid. unfold GroupMemberships.each.
    destruct Hfalsy as [-> | ->]; cbn [truthy_string];
      destruct Hid as [-> | ->]; reflexivity.
  - intros membership u st0 current Htime Hget0.
    destruct (memberships_each bookmark membership st0 current Hget0)
      as (st' & c' & -> & _). unfold synced. rewrite Htime. simpl.
    destruct (Z.leb_spec bookmark (strptime_with_tz u)); simpl.
    + split; [auto|]. intros _. now left.
    + split; [tauto|lia].
Qed.

Lemma group_memberships_filter_witness :
  (exists st',
      GroupMemberships.sync [membership_undated; membership_empty; membership_dated]
        (state_2020 GroupMemberships.self)
      = ([Yield membership_undated; Yield membership_empty;
          Yield membership_dated], Done st'))
  /\ GroupMemberships.each 0 membership_empty ∅
     = ([Yield membership_empty], Ok ∅)
  /\ GroupMemberships.each 0 membership_zero ∅ = ([], Ok ∅)
  /\ (In (Yield membership_dated)
        (fst (GroupMemberships.each (strptime_with_tz 1577836800)
                membership_dated (state_2020 GroupMemberships.self)))
      <-> strptime_with_tz 1577836800 <= strptime_with_tz 1577836800).
Proof.
  destruct (group_memberships_filter
              [membership_undated; membership_empty; membership_dated]
              (state_2020 GroupMemberships.self) (strptime_with_tz 1577836800)
              (get_write_bookmark GroupMemberships.self ∅ 1577836800))
    as (Hrun & Hfalsy & Hskip & Hdated).
  split; [exact Hrun|]. split; [|split].
  - apply Hfalsy; [right|]; reflexivity.
  - apply Hskip; [left|right]; reflexivity.
  - apply (Hdated membership_dated 1577836800
             (state_2020 GroupMemberships.self) (strptime_with_tz 1577836800)).
    + reflexivity.
    + apply get_write_bookmark.
Defined.

(** C10, as the claim words it, fails on values that are not null but
    falsy.  A membership with a null [updated_at] and the id 0 has a
    non-null id and is not yielded.  A membership with the empty string as
    [updated_at] has a non-null [updated_at] and is yielded whatever the
    bookmark, here with a bookmark in 2030. *)
Lemma group_membership_falsy_not_null :
  (membership_updated_at membership_zero = Null
   /\ membership_id membership_zero <> None
   /\ GroupMemberships.sync [membership_zero] (state_2020 GroupMemberships.self)
      = ([], Done (state_2020 GroupMemberships.self)))
  /\ (membership_updated_at membership_empty <> Null
      /\ GroupMemberships.sync [membership_empty]
           (state_2030 GroupMemberships.self)
         = ([Yield membership_empty], Done (state_2030 GroupMemberships.self))).
Proof.
  split.
  - split; [reflexivity|]. split; [discriminate|]. vm_compute. reflexivity.
  - split; [discriminate|]. vm_compute. reflexivity.
Qed.

(** * Further properties of [streams.py] and [__init__.py] *)

(** ** The bookmark of one stream and the others *)

Lemma update_bookmark_cases (self : Stream) (st st' : State) (value : option Z) :
  update_bookmark self st value = Ok st' ->
  st' = st
  \/ exists v,
       value = Some v
       /\ st' = singer_write_bookmark st (name self) (replication_key self) (v + 1)
       /\ forall current, get_bookmark self st = Ok current ->
                          current < strptime_with_tz v.
Proof.
  unfold update_bookmark.
  destruct (get_bookmark self st) as [current|e]; [|discriminate].
  destruct value as [v|]; [|intros [= <-]; now left].
  destruct (Z.ltb_spec current (strptime_with_tz v)); intros [= <-];
    [|now left].
  right. exists v. rewrite strftime_plus_second.
  repeat split. now intros c [= <-].
Qed.

(** [update_bookmark] on one stream changes no bookmark stored under another
    stream name or another replication key. *)
Theorem update_bookmark_frame (self : Stream) (st st' : State)
    (value : option Z) (tap_stream_id key : string) :
  update_bookmark self st value = Ok st' ->
  (tap_stream_id, key) <> (name self, replication_key self) ->
  singer_get_bookmark st' tap_stream_id key
  = singer_get_bookmark st tap_stream_id key.
Proof.
  intros Hup Hne.
  destruct (update_bookmark_cases self st st' value Hup)
    as [->|(v & _ & -> & _)]; [reflexivity|].
  unfold singer_get_bookmark, singer_write_bookmark.
  destruct (decide (tap_stream_id = name self)) as [->|Hname].
  - rewrite lookup_insert_eq.
    assert (key <> replication_key self) by congruence.
    rewrite lookup_insert_ne by congruence.
    destruct (st !! name self); [reflexivity|apply lookup_empty].
  - now rewrite lookup_insert_ne by congruence.
Qed.

Lemma update_bookmark_frame_witness :
  singer_get_bookmark
    (singer_write_bookmark (state_2020 Users.self) "users" "updated_at" 1577836901)
    "groups" "updated_at"
  = singer_get_bookmark (state_2020 Users.self) "groups" "updated_at".
Proof.
  apply (update_bookmark_frame Users.self (state_2020 Users.self) _
           (Some 1577836900) "groups" "updated_at").
  - reflexivity.
  - discriminate.
Defined.

(** Advancing twice to the same value is advancing once: the second call
    finds the bookmark already past the value and changes nothing. *)
Theorem update_bookmark_idempotent (self : Stream) (st st' : State)
    (value : option Z) :
  update_bookmark self st value = Ok st' ->
  update_bookmark self st' value = Ok st'.
Proof.
  intros Hup.
  destruct (update_bookmark_cases self st st' value Hup)
    as [->|(v & -> & -> & _)]; [exact Hup|].
  unfold update_bookmark. rewrite get_write_bookmark.
  destruct (Z.ltb_spec (strptime_with_tz (v + 1)) (strptime_with_tz v));
    [time_lia|reflexivity].
Qed.

Lemma update_bookmark_idempotent_witness :
  update_bookmark Users.self
    (singer_write_bookmark (state_2020 Users.self) "users" "updated_at" 1577836901)
    (Some 1577836900)
  = Ok (singer_write_bookmark (state_2020 Users.self) "users" "updated_at"
          1577836901).
Proof.
  apply (update_bookmark_idempotent Users.self (state_2020 Users.self)).
  reflexivity.
Defined.

(** A stream whose bookmark is missing from the state fails with a
    [TypeError] before it requests or yields anything: the bookmark must have
    been seeded before [sync] is called. *)
Theorem sync_without_bookmark (st : State) (self : Stream) :
  singer_get_bookmark st (name self) (replication_key self) = None ->
  get_bookmark self st = Raise TypeError
  /\ (forall value, update_bookmark self st value = Raise TypeError)
  /\ (forall config now api fuel,
        self = Users.self ->
        Users.sync config now api fuel st = ([], Raised TypeError))
  /\ (forall config now api fuel,
        self = SatisfactionRatings.self ->
        SatisfactionRatings.sync config now api fuel st = ([], Raised TypeError))
  /\ (forall tickets, self = Tickets.self ->
        Tickets.sync tickets st = ([], inl (Exn TypeError)))
  /\ (forall tickets audits, self = TicketAudits.self ->
        TicketAudits.sync tickets audits st = ([], Raised TypeError))
  /\ (forall tickets comments, self = TicketComments.self ->
        TicketComments.sync tickets comments st = ([], Raised TypeError))
  /\ (forall tickets metrics, self = TicketMetrics.self ->
        TicketMetrics.sync tickets metrics st = ([], Raised TypeError))
  /\ (forall memberships, self = GroupMemberships.self ->
        GroupMemberships.sync memberships st = ([], Raised TypeError))
  /\ (forall organizations, self = Organizations.self ->
        Organizations.sync organizations st = ([], Raised TypeError))
  /\ (forall records, snapshot_sync self records st = ([], Raised TypeError)).
Proof.
  intros Hnone.
  assert (Hget : get_bookmark self st = Raise TypeError)
    by (unfold get_bookmark; now rewrite Hnone).
  split; [exact Hget|].
  split; [intros value; unfold update_bookmark; now rewrite Hget|].
  repeat split; intros; subst;
    unfold Users.sync, SatisfactionRatings.sync, Tickets.sync,
      TicketAudits.sync, TicketComments.sync, TicketMetrics.sync,
      run_children, GroupMemberships.sync, Organizations.sync, snapshot_sync;
    now rewrite Hget.
Qed.

Lemma sync_without_bookmark_witness :
  Users.sync config_default now_2021 empty_api 5 ∅ = ([], Raised TypeError)
  /\ Groups.sync rows_2020 ∅ = ([], Raised TypeError).
Proof.
  assert (Hnone : forall self : Stream,
             singer_get_bookmark ∅ (name self) (replication_key self) = None).
  { intros self. unfold singer_get_bookmark. now rewrite lookup_empty. }
  split.
  - destruct (sync_without_bookmark ∅ Users.self (Hnone _))
      as (_ & _ & Husers & _).
    now apply Husers.
  - destruct (sync_without_bookmark ∅ Groups.self (Hnone _))
      as (_ & _ & _ & _ & _ & _ & _ & _ & _ & _ & Hsnapshot).
    apply Hsnapshot.
Defined.

(** ** Users: the window *)

(** An answer over the cap of 1000 users, in [Users.sync]: a window of more
    than one second is halved, to no less than one second, with the same
    start and the same state and nothing yielded; a window of one second
    raises. *)
Theorem users_halving (config : Config) (now : Z)
    (api : nat -> Z -> Z -> SearchResult) (l : locals) :
  1000 < count (api (requests l) (Users.parsed_start l) (Users.parsed_end now l)) ->
  (1 < search_window_size l ->
     exists l',
       Users.body config now api l
       = ([Search (Users.parsed_start l) (Users.parsed_end now l)], Ok l')
       /\ search_window_size l' = search_window_size l / 2
       /\ 1 <= search_window_size l'
       /\ start l' = start l
       /\ end_ l' = start l + timedelta (search_window_size l')
       /\ state l' = state l)
  /\ (search_window_size l <= 1 ->
        exists msg,
          Users.body config now api l
          = ([Search (Users.parsed_start l) (Users.parsed_end now l)],
             Raise (Exception_ msg))).
Proof.
  intros Hcount. unfold Users.body.
  destruct (Z.ltb_spec 1000 (count (api (requests l) (Users.parsed_start l)
                                      (Users.parsed_end now l)))); [|lia].
  split; intros Hsize;
    destruct (Z.ltb_spec 1 (search_window_size l)); try lia.
  - eexists (Build_locals _ _ _ _ _ _). split; [reflexivity|].
    cbn [search_window_size start end_ state].
    split; [reflexivity|]. split; [Z.div_mod_to_equations; lia|].
    repeat split.
  - now eexists.
Qed.

Lemma users_halving_witness :
  exists l',
    Users.body config_default now_2021 flooded_api
      (locals_2020 Users.self 2592000 (strptime_with_tz 1577836799))
    = ([Search 1577836799 1580428799], Ok l')
    /\ search_window_size l' = 1296000
    /\ state l' = state_2020 Users.self.
Proof.
  destruct (users_halving config_default now_2021 flooded_api
              (locals_2020 Users.self 2592000 (strptime_with_tz 1577836799)))
    as [Hhalve _]; [reflexivity|].
  destruct Hhalve as (l' & Hbody & Hsize & _ & _ & _ & Hstate); [reflexivity|].
  exists l'. split; [exact Hbody|]. split; [exact Hsize|exact Hstate].
Defined.

Section users_window.
Variable config : Config.
Variable now : Z.
Variable api : nat -> Z -> Z -> SearchResult.

Lemma users_body_window (l l' : locals) (evs : list (event Row)) :
  window_ok 1 (Users.original_search_window_size config) l ->
  Users.body config now api l = (evs, Ok l') ->
  window_ok 1 (Users.original_search_window_size config) l'
  /\ start l <= start l'.
Proof.
  intros [Hsize Hend]. unfold Users.body, window_ok.
  destruct (1000 <? count _).
  { destruct (Z.ltb_spec 1 (search_window_size l)); intros [= <- <-]; simpl.
    repeat split; try lia; Z.div_mod_to_equations; lia. }
  destruct (negb _).
  { destruct (num_retries l <? 60); intros [= <- <-]; simpl.
    repeat split; lia. }
  destruct (update_bookmark _ _ _); intros [= <- <-]; simpl.
  destruct (Z.leb_spec (search_window_size l)
              (Users.original_search_window_size config / 2)).
  - repeat split; try lia; try (Z.div_mod_to_equations; lia).
    rewrite Hend. unfold timedelta. lia.
  - repeat split; try lia. rewrite Hend. unfold timedelta. lia.
Qed.

Lemma users_loop_window (fuel : nat) :
  forall (l l' : locals) (evs : list (event Row)),
    window_ok 1 (Users.original_search_window_size config) l ->
    Users.loop config now api fuel l = (evs, Done l') ->
    window_ok 1 (Users.original_search_window_size config) l'
    /\ start l <= start l'
    /\ Users.sync_end now <= start l'.
Proof.
  induction fuel as [|fuel IH]; intros l l' evs Hok; [discriminate|].
  rewrite users_loop_S.
  destruct (Z.ltb_spec (start l) (Users.sync_end now)).
  - destruct (Users.body config now api l) as [evs1 [l1|e]] eqn:Hbody;
      [|discriminate].
    destruct (users_body_window l l1 evs1 Hok Hbody) as [Hok1 Hstart1].
    destruct (Users.loop config now api fuel l1) as [evs2 o] eqn:Hloop.
    intros [= <- ->].
    destruct (IH l1 l' evs2 Hok1 Hloop) as (Hok' & Hstart' & Hend').
    repeat split; try apply Hok'; lia.
  - intros [= <- <-]. repeat split; try apply Hok; lia.
Qed.

(** Every pass of [Users.sync] that does not raise, over the cap or not,
    stale or not, keeps the window well formed: its size stays between one
    second and the configured size, its end is its start plus its size, and
    the start never moves back.  So a loop that ends normally ends with such
    a window, with a start at or after [sync_end]. *)
Theorem users_window_invariant (l : locals) :
  window_ok 1 (Users.original_search_window_size config) l ->
  (forall evs l',
      Users.body config now api l = (evs, Ok l') ->
      window_ok 1 (Users.original_search_window_size config) l'
      /\ start l <= start l')
  /\ (forall fuel evs l',
        Users.loop config now api fuel l = (evs, Done l') ->
        window_ok 1 (Users.original_search_window_size config) l'
        /\ start l <= start l'
        /\ Users.sync_end now <= start l').
Proof.
  intros Hok. split.
  - intros evs l'. now apply users_body_window.
  - intros fuel evs l'. now apply users_loop_window.
Qed.

(** A pass whose answer is within the cap and consistent yields exactly the
    records of the answer that lie in the window, then writes the state; the
    bookmark it leaves is at or after the end of the window, and not before
    the bookmark it found. *)
Theorem users_pass_checkpoint (l : locals) (current : Z) :
  consistent 1000 (Users.parsed_start l)
    (api (requests l) (Users.parsed_start l) (Users.parsed_end now l)) ->
  get_bookmark Users.self (state l) = Ok current ->
  exists l' current',
    Users.body config now api l
    = (Search (Users.parsed_start l) (Users.parsed_end now l)
         :: map Yield
              (List.filter
                 (fun user => (Users.parsed_start l <=? updated_at user)
                              && (updated_at user <=? Users.parsed_end now l))
                 (items (api (requests l) (Users.parsed_start l)
                           (Users.parsed_end now l))))
         ++ [WriteState (state l')],
       Ok l')
    /\ get_bookmark Users.self (state l') = Ok current'
    /\ current <= current'
    /\ strptime_with_tz (Users.parsed_end now l) <= current'.
Proof.
  intros Hok Hget. apply consistent_forallb in Hok as [Hcap Hall].
  unfold Users.body. rewrite Hcap, Hall. cbn [negb].
  unfold update_bookmark. rewrite Hget.
  destruct (Z.ltb_spec current (strptime_with_tz (Users.parsed_end now l))).
  - eexists (Build_locals _ _ _ _ _ _), _. split; [reflexivity|]. cbn [state].
    rewrite get_write_bookmark. split; [reflexivity|].
    rewrite strftime_plus_second. time_lia.
  - eexists (Build_locals _ _ _ _ _ _), _. split; [reflexivity|]. cbn [state].
    split; [exact Hget|]. lia.
Qed.

End users_window.

Lemma users_window_invariant_witness :
  exists evs l',
    Users.loop config_default now_2021 empty_api 20
      (locals_2020 Users.self 2592000 (strptime_with_tz 1577836799))
    = (evs, Done l')
    /\ window_ok 1 2592000 l'
    /\ Users.sync_end now_2021 <= start l'.
Proof.
  eexists _, _. split; [vm_compute; reflexivity|].
  destruct (users_window_invariant config_default now_2021 empty_api
              (locals_2020 Users.self 2592000 (strptime_with_tz 1577836799)))
    as [_ Hloop].
  - split; [vm_compute; split; discriminate|reflexivity].
  - edestruct (Hloop 20%nat) as (Hok & _ & Hend); [vm_compute; reflexivity|].
    split; [exact Hok|exact Hend].
Defined.

Lemma users_pass_checkpoint_witness :
  exists l' current',
    get_bookmark Users.self (state l') = Ok current'
    /\ strptime_with_tz 1577840399 <= current'
    /\ snd (Users.body config_default now_2021 boundary_api
              (locals_2020 Users.self 3600 (strptime_with_tz 1577836799)))
       = Ok l'.
Proof.
  destruct (users_pass_checkpoint config_default now_2021 boundary_api
              (locals_2020 Users.self 3600 (strptime_with_tz 1577836799))
              (strptime_with_tz 1577836800))
    as (l' & current' & Hbody & Hget & _ & Hend).
  - split; [vm_compute; discriminate|].
    intros row [<-|[]]. vm_compute. discriminate.
  - apply get_write_bookmark.
  - exists l', current'. split; [exact Hget|]. split; [exact Hend|].
    now rewrite Hbody.
Defined.

(** When every window of two seconds or more from some start is over the
    cap while the one-second window is within it, [Users.sync] neither ends
    nor raises: the one-second pass succeeds, doubles the window and, because
    of the one-second overlap, keeps the start; the two-second pass is over
    the cap and halves the window again. *)
Theorem users_livelock (config : Config) (now : Z)
    (api : nat -> Z -> Z -> SearchResult) :
  2 <= Users.original_search_window_size config ->
  (forall n a b, 2 <= b - a -> 1000 < count (api n a b)) ->
  (forall n a b, b - a <= 1 -> consistent 1000 a (api n a b)) ->
  forall (fuel : nat) (l : locals),
    search_window_size l = 1 \/ search_window_size l = 2 ->
    end_ l = start l + timedelta (search_window_size l) ->
    strftime (start l) + 2 <= Users.parsed_sync_end now ->
    (exists current, get_bookmark Users.self (state l) = Ok current) ->
    snd (Users.loop config now api fuel l) = OutOfFuel.
Proof.
  intros Horig Hover Hin.
  induction fuel as [|fuel IH]; intros l Hsize Hend Hfar [current Hget];
    [reflexivity|].
  rewrite users_loop_S.
  assert (Hlt : start l < Users.sync_end now)
    by (unfold Users.parsed_sync_end in Hfar; time_lia).
  destruct (Z.ltb_spec (start l) (Users.sync_end now)); [|lia].
  destruct Hsize as [Hone|Htwo].
  - assert (Hpe : Users.parsed_end now l = Users.parsed_start l + 1).
    { unfold Users.parsed_end, Users.parsed_start. rewrite Hend, Hone.
      unfold Users.parsed_sync_end in *. time_lia. }
    destruct (body_pass config now api l current) as
      (evs & l' & -> & _ & Hstart' & Hend' & Hsize' & _ & Hget');
      [apply Hin; lia|exact Hget|].
    rewrite Hone in Hsize'.
    destruct (Z.leb_spec 1 (Users.original_search_window_size config / 2));
      [|Z.div_mod_to_equations; lia].
    assert (Hsame : start l' = start l)
      by (rewrite Hstart', Hend, Hone; unfold timedelta; lia).
    specialize (IH l' (or_intror Hsize') Hend').
    rewrite Hsame in IH. specialize (IH Hfar Hget').
    destruct (Users.loop config now api fuel l'). exact IH.
  - assert (Hpe : Users.parsed_end now l = Users.parsed_start l + 2).
    { unfold Users.parsed_end, Users.parsed_start. rewrite Hend, Htwo.
      unfold Users.parsed_sync_end in *. time_lia. }
    destruct (users_over_cap config now api l) as [Hhalve _];
      [apply Hover; lia|].
    destruct Hhalve as (l' & -> & Hsize' & _ & Hstart' & Hend' & Hstate');
      [lia|].
    rewrite Htwo in Hsize'. change (2 / 2) with 1 in Hsize'.
    specialize (IH l' (or_introl Hsize')).
    rewrite Hstart', Hstate' in IH.
    specialize (IH Hend' Hfar (ex_intro _ current Hget)).
    destruct (Users.loop config now api fuel l'). exact IH.
Qed.

Lemma users_livelock_witness :
  snd (Users.loop config_default now_2021 crowded_api 50
         (locals_2020 Users.self 2 (strptime_with_tz 1577836799)))
  = OutOfFuel.
Proof.
  apply (users_livelock config_default now_2021 crowded_api).
  - vm_compute. discriminate.
  - intros n a b Hwide. unfold crowded_api.
    destruct (Z.leb_spec 2 (b - a)); [simpl; lia|lia].
  - intros n a b Hnarrow. unfold crowded_api.
    destruct (Z.leb_spec 2 (b - a)); [lia|].
    split; [simpl; lia|]. intros row [].
  - right. reflexivity.
  - reflexivity.
  - vm_compute. discriminate.
  - eexists. apply get_write_bookmark.
Defined.

(** ** SatisfactionRatings: the window *)

Section ratings_window.
Variable config : Config.
Variable now : Z.
Variable api : nat -> Z -> Z -> SearchResult.
Variable bookmark : Z.

Lemma ratings_body_shape (l l' : locals) (evs : list (event Row)) :
  SatisfactionRatings.body config now api bookmark l = (evs, Ok l') ->
  (search_window_size l' = search_window_size l / 2
   /\ start l' = start l
   /\ end_ l' = start l + timedelta (search_window_size l'))
  \/ (search_window_size l'
      = (if search_window_size l
            <=? SatisfactionRatings.original_search_window_size config / 2
         then search_window_size l * 2 else search_window_size l)
      /\ start l' = end_ l - timedelta 1
      /\ end_ l' = start l' + timedelta (search_window_size l')).
Proof.
  unfold SatisfactionRatings.body.
  destruct (50000 <? count _); [intros [= <- <-]; left; now simpl|].
  destruct (SatisfactionRatings.each_rating _ _ _ _) as [evs' [st'|e]];
    intros [= <- <-]. right. now simpl.
Qed.

Lemma ratings_body_window (l l' : locals) (evs : list (event Row)) :
  window_ok 0 (SatisfactionRatings.original_search_window_size config) l ->
  SatisfactionRatings.body config now api bookmark l = (evs, Ok l') ->
  window_ok 0 (SatisfactionRatings.original_search_window_size config) l'.
Proof.
  intros [Hsize Hend] Hbody. unfold window_ok.
  destruct (ratings_body_shape l l' evs Hbody)
    as [(Hs & Hst & He)|(Hs & _ & He)]; rewrite He, Hs; clear He Hs.
  - split; [Z.div_mod_to_equations; lia|now rewrite Hst].
  - split; [|reflexivity].
    destruct (Z.leb_spec (search_window_size l)
                (SatisfactionRatings.original_search_window_size config / 2));
      [Z.div_mod_to_equations; lia|lia].
Qed.

Lemma ratings_loop_window (fuel : nat) :
  forall (l l' : locals) (evs : list (event Row)),
    window_ok 0 (SatisfactionRatings.original_search_window_size config) l ->
    SatisfactionRatings.loop config now api bookmark fuel l = (evs, Done l') ->
    window_ok 0 (SatisfactionRatings.original_search_window_size config) l'
    /\ SatisfactionRatings.sync_end now <= start l'.
Proof.
  induction fuel as [|fuel IH]; intros l l' evs Hok; [discriminate|].
  rewrite ratings_loop_S.
  destruct (Z.ltb_spec (start l) (SatisfactionRatings.sync_end now)).
  - destruct (SatisfactionRatings.body config now api bookmark l)
      as [evs1 [l1|e]] eqn:Hbody; [|discriminate].
    destruct (SatisfactionRatings.loop config now api bookmark fuel l1)
      as [evs2 o] eqn:Hloop.
    intros [= <- ->]. apply (IH l1 l' evs2); [|exact Hloop].
    destruct Hok as [Hsize Hend]. unfold window_ok.
    destruct (ratings_body_shape l l1 evs1 Hbody)
      as [(Hs & Hst & He)|(Hs & _ & He)]; rewrite He, Hs; clear He Hs.
    + split; [Z.div_mod_to_equations; lia|now rewrite Hst].
    + split; [|reflexivity].
      destruct (Z.leb_spec (search_window_size l)
                  (SatisfactionRatings.original_search_window_size config / 2));
        [Z.div_mod_to_equations; lia|lia].
  - intros [= <- <-]. split; [exact Hok|lia].
Qed.

(** Every pass of [SatisfactionRatings.sync] that does not raise keeps the
    window size between zero and the configured size, and the window end at
    the start plus the size; the lower bound is zero, not one second.  So a
    loop that ends normally ends with such a window, with a start at or
    after [sync_end]. *)
Theorem ratings_window_invariant (l : locals) :
  window_ok 0 (SatisfactionRatings.original_search_window_size config) l ->
  (forall evs l',
      SatisfactionRatings.body config now api bookmark l = (evs, Ok l') ->
      window_ok 0 (SatisfactionRatings.original_search_window_size config) l')
  /\ (forall fuel evs l',
        SatisfactionRatings.loop config now api bookmark fuel l = (evs, Done l') ->
        window_ok 0 (SatisfactionRatings.original_search_window_size config) l'
        /\ SatisfactionRatings.sync_end now <= start l').
Proof.
  intros Hok. split.
  - intros evs l'. now apply ratings_body_window.
  - intros fuel evs l'. now apply ratings_loop_window.
Qed.

(** A window of zero seconds is final: from it no pass, over the cap or not,
    gets a larger window or a later start, so the loop never ends normally;
    it can only go on or raise. *)
Theorem ratings_zero_window_final (fuel : nat) :
  forall l : locals,
    search_window_size l = 0 ->
    end_ l = start l ->
    start l < SatisfactionRatings.sync_end now ->
    forall l', snd (SatisfactionRatings.loop config now api bookmark fuel l)
               <> Done l'.
Proof.
  induction fuel as [|fuel IH]; intros l Hsize Hend Hlt l'; [discriminate|].
  rewrite ratings_loop_S.
  destruct (Z.ltb_spec (start l) (SatisfactionRatings.sync_end now)); [|lia].
  destruct (SatisfactionRatings.body config now api bookmark l)
    as [evs1 [l1|e]] eqn:Hbody; [|discriminate].
  assert (Hl1 : search_window_size l1 = 0 /\ end_ l1 = start l1
                /\ start l1 <= start l).
  { destruct (ratings_body_shape l l1 evs1 Hbody)
      as [(Hs & Hst & He)|(Hs & Hst & He)]; rewrite Hsize in Hs.
    - change (0 / 2) with 0 in Hs. rewrite Hs in He.
      unfold timedelta in He. repeat split; lia.
    - assert (search_window_size l1 = 0)
        by (destruct (0 <=? _) in Hs; lia).
      rewrite H0 in He. unfold timedelta in *. repeat split; lia. }
  destruct Hl1 as (Hsize1 & Hend1 & Hstart1).
  specialize (IH l1 Hsize1 Hend1 ltac:(lia) l').
  destruct (SatisfactionRatings.loop config now api bookmark fuel l1).
  exact IH.
Qed.

Lemma each_rating_stale (l : locals) (ratings : list Row) :
  (exists row, In row ratings
               /\ updated_at row < SatisfactionRatings.parsed_start l) ->
  forall (st : State) (current : Z),
    get_bookmark SatisfactionRatings.self st = Ok current ->
    exists evs,
      SatisfactionRatings.each_rating bookmark l ratings st
      = (evs, Raise AssertionError)
      /\ forall st', ~ In (WriteState st') evs.
Proof.
  induction ratings as [|rating rest IH]; intros (row & Hin & Hlt) st current Hget;
    [destruct Hin|].
  cbn [SatisfactionRatings.each_rating].
  destruct (Z.leb_spec (SatisfactionRatings.parsed_start l) (updated_at rating))
    as [Hle|_].
  2:{ exists []. split; [reflexivity|]. intros st' []. }
  assert (Hrest : exists row, In row rest
                    /\ updated_at row < SatisfactionRatings.parsed_start l).
  { destruct Hin as [->|Hin]; [lia|]. now exists row. }
  assert (Hadv : exists st1 c1,
             (if (bookmark <? strptime_with_tz (updated_at rating))
                 && (strptime_with_tz (updated_at rating) <=? end_ l)
              then update_bookmark SatisfactionRatings.self st
                     (Some (updated_at rating))
              else Ok st) = Ok st1
             /\ get_bookmark SatisfactionRatings.self st1 = Ok c1).
  { destruct (_ && _).
    - destruct (update_bookmark_Ok SatisfactionRatings.self st
                  (Some (updated_at rating)) current Hget)
        as (st1 & c1 & Hup & Hget1 & _).
      now exists st1, c1.
    - now exists st, current. }
  destruct Hadv as (st1 & c1 & -> & Hget1).
  destruct (IH Hrest st1 c1 Hget1) as (evs & -> & Hnow).
  eexists. split; [reflexivity|].
  intros st' Hw. apply in_app_or in Hw as [Hw|Hw]; [|now apply (Hnow st')].
  destruct (_ && _); [destruct Hw as [Hw|[]]; discriminate|destruct Hw].
Qed.

(** A rating older than the window start is not retried: the pass raises
    [AssertionError] at once, and the state is not written; the ratings
    listed before it may already have been yielded. *)
Theorem ratings_stale_raises (l : locals) (current : Z) :
  stale 50000 (SatisfactionRatings.parsed_start l)
    (api (requests l) (SatisfactionRatings.epoch_start l)
       (Z.min (SatisfactionRatings.epoch_end l)
          (SatisfactionRatings.epoch_sync_end now))) ->
  get_bookmark SatisfactionRatings.self (state l) = Ok current ->
  exists evs,
    SatisfactionRatings.body config now api bookmark l
    = (evs, Raise AssertionError)
    /\ forall st', ~ In (WriteState st') evs.
Proof.
  intros [Hcap Hstale] Hget. unfold SatisfactionRatings.body.
  destruct (Z.ltb_spec 50000
              (count (api (requests l) (SatisfactionRatings.epoch_start l)
                        (Z.min (SatisfactionRatings.epoch_end l)
                           (SatisfactionRatings.epoch_sync_end now)))));
    [lia|].
  destruct (each_rating_stale l _ Hstale (state l) current Hget)
    as (evs & -> & Hnow).
  eexists. split; [reflexivity|].
  intros st' [Hq|Hw]; [discriminate|now apply (Hnow st')].
Qed.

End ratings_window.

Lemma ratings_window_invariant_witness :
  exists evs l',
    SatisfactionRatings.loop config_default now_2021 empty_api
      (strptime_with_tz 1577836800) 20
      (locals_2020 SatisfactionRatings.self 2592000 (strptime_with_tz 1577836800))
    = (evs, Done l')
    /\ window_ok 0 2592000 l'.
Proof.
  eexists _, _. split; [vm_compute; reflexivity|].
  destruct (ratings_window_invariant config_default now_2021 empty_api
              (strptime_with_tz 1577836800)
              (locals_2020 SatisfactionRatings.self 2592000
                 (strptime_with_tz 1577836800)))
    as [_ Hloop].
  - split; [vm_compute; split; discriminate|reflexivity].
  - edestruct (Hloop 20%nat) as (Hok & _); [vm_compute; reflexivity|].
    exact Hok.
Defined.

Lemma ratings_zero_window_final_witness :
  match
    snd (SatisfactionRatings.loop config_default now_2021 empty_api
           (strptime_with_tz 1577836800) 30
           (locals_2020 SatisfactionRatings.self 0 (strptime_with_tz 1577836800)))
  with
  | Done _ => False
  | _ => True
  end.
Proof.
  pose proof (ratings_zero_window_final config_default now_2021 empty_api
                (strptime_with_tz 1577836800) 30
                (locals_2020 SatisfactionRatings.self 0
                   (strptime_with_tz 1577836800))
                eq_refl eq_refl eq_refl) as Hfinal.
  destruct (snd _) as [l'| |]; [|exact I|exact I].
  now apply (Hfinal l').
Defined.

Lemma ratings_stale_raises_witness :
  exists evs,
    SatisfactionRatings.body config_default now_2021 stale_api
      (strptime_with_tz 1577836800)
      (locals_2020 SatisfactionRatings.self 3600 (strptime_with_tz 1577836800))
    = (evs, Raise AssertionError)
    /\ forall st', ~ In (WriteState st') evs.
Proof.
  apply (ratings_stale_raises config_default now_2021 stale_api
           (strptime_with_tz 1577836800)
           (locals_2020 SatisfactionRatings.self 3600 (strptime_with_tz 1577836800))
           (strptime_with_tz 1577836800)).
  - split; [vm_compute; discriminate|].
    eexists. split; [left; reflexivity|]. vm_compute. reflexivity.
  - apply get_write_bookmark.
Defined.

(** ** The snapshot streams *)

Section snapshot.
Variable self : Stream.
Variable bookmark : Z.

Lemma snapshot_loop_spec (records : list Row) :
  forall (st : State) (current : Z),
    get_bookmark self st = Ok current ->
    exists st' current',
      snapshot_loop self bookmark records st
      = (map Yield (List.filter (kept bookmark) records), Ok st')
      /\ get_bookmark self st' = Ok current'
      /\ current <= current'
      /\ (forall record, In record records -> kept bookmark record = true ->
            strptime_with_tz (updated_at record) <= current')
      /\ (current' = current
          \/ exists record,
               In record records /\ kept bookmark record = true
               /\ current' = strptime_with_tz (updated_at record) + timedelta 1).
Proof.
  induction records as [|record rest IH]; intros st current Hget.
  - exists st, current. split; [reflexivity|]. split; [exact Hget|].
    split; [lia|]. split; [intros r []|now left].
  - cbn [snapshot_loop List.filter]. unfold kept at 1.
    destruct (Z.leb_spec bookmark (strptime_with_tz (updated_at record)))
      as [Hkept|Hdrop].
    + assert (Hup : exists st1 c1,
                 update_bookmark self st (Some (updated_at record)) = Ok st1
                 /\ get_bookmark self st1 = Ok c1
                 /\ current <= c1
                 /\ strptime_with_tz (updated_at record) <= c1
                 /\ (c1 = current
                     \/ c1 = strptime_with_tz (updated_at record) + timedelta 1)).
      { unfold update_bookmark. rewrite Hget.
        destruct (Z.ltb_spec current (strptime_with_tz (updated_at record))).
        - eexists _, _. split; [reflexivity|].
          rewrite get_write_bookmark, strftime_plus_second.
          split; [reflexivity|]. split; [time_lia|]. split; [time_lia|].
          right. time_lia.
        - exists st, current. split; [reflexivity|]. split; [exact Hget|].
          split; [lia|]. split; [lia|now left]. }
      destruct Hup as (st1 & c1 & -> & Hget1 & Hle1 & Hrec1 & Hc1).
      destruct (IH st1 c1 Hget1)
        as (st' & c' & -> & Hget' & Hle' & Hall & Hlast).
      exists st', c'. split; [reflexivity|]. split; [exact Hget'|].
      split; [lia|]. split.
      * intros r [<-|Hin] Hk; [lia|now apply Hall].
      * destruct Hlast as [->|(r' & Hin' & Hk' & ->)].
        -- destruct Hc1 as [-> | ->]; [now left|].
           right. exists record. split; [now left|]. split; [|reflexivity].
           unfold kept. lia.
        -- right. exists r'. split; [now right|]. now split.
    + destruct (IH st current Hget)
        as (st' & c' & -> & Hget' & Hle' & Hall & Hlast).
      exists st', c'. split; [reflexivity|]. split; [exact Hget'|].
      split; [lia|]. split.
      * intros r [<-|Hin] Hk; [unfold kept in Hk; lia|now apply Hall].
      * destruct Hlast as [->|(r' & Hin' & Hk' & ->)]; [now left|].
        right. exists r'. split; [now right|]. now split.
Qed.

End snapshot.

Lemma yields_map_Yield {R : Type} (l : list R) : yields (map Yield l) = l.
Proof. induction l as [|x l IH]; simpl; [reflexivity|now rewrite IH]. Qed.

(** [Groups.sync], [Macros.sync], [TicketFields.sync] and [TicketForms.sync]
    never raise once the bookmark is there, and yield exactly the listed
    records whose [updated_at] is at or after the bookmark read at the start,
    in listing order; a record dated exactly at the bookmark is yielded
    again. *)
Theorem snapshot_sync_yields (self : Stream) (records : list Row) (st : State)
    (bookmark : Z) :
  get_bookmark self st = Ok bookmark ->
  exists st',
    snapshot_sync self records st
    = (map Yield (List.filter (kept bookmark) records), Done st').
Proof.
  intros Hget. unfold snapshot_sync. rewrite Hget.
  destruct (snapshot_loop_spec self bookmark records st bookmark Hget)
    as (st' & c' & -> & _).
  now exists st'.
Qed.

Lemma snapshot_sync_yields_witness :
  exists st',
    Groups.sync rows_2020 (state_2020 Groups.self)
    = ([Yield {| row_id := 1; updated_at := 1577836810 |};
        Yield {| row_id := 3; updated_at := 1577836800 |}], Done st').
Proof.
  apply (snapshot_sync_yields Groups.self rows_2020 (state_2020 Groups.self)
           (strptime_with_tz 1577836800)).
  apply get_write_bookmark.
Defined.

(** The bookmark a snapshot stream leaves is not before the one it found, is
    at or after the [updated_at] of every record it yielded, and is either
    the old bookmark or one second past the [updated_at] of a yielded
    record. *)
Theorem snapshot_sync_bookmark (self : Stream) (records : list Row) (st : State)
    (bookmark : Z) :
  get_bookmark self st = Ok bookmark ->
  exists evs st' bookmark',
    snapshot_sync self records st = (evs, Done st')
    /\ get_bookmark self st' = Ok bookmark'
    /\ bookmark <= bookmark'
    /\ (forall record, In record (yields evs) ->
          strptime_with_tz (updated_at record) <= bookmark')
    /\ (bookmark' = bookmark
        \/ exists record,
             In record (yields evs)
             /\ bookmark' = strptime_with_tz (updated_at record) + timedelta 1).
Proof.
  intros Hget. unfold snapshot_sync. rewrite Hget.
  destruct (snapshot_loop_spec self bookmark records st bookmark Hget)
    as (st' & c' & -> & Hget' & Hle & Hall & Hlast).
  exists (map Yield (List.filter (kept bookmark) records)), st', c'.
  split; [reflexivity|]. split; [exact Hget'|]. split; [exact Hle|].
  rewrite yields_map_Yield. split.
  - intros record Hin. apply filter_In in Hin as [Hin Hk]. now apply Hall.
  - destruct Hlast as [->|(record & Hin & Hk & ->)]; [now left|].
    right. exists record. split; [|reflexivity]. now apply filter_In.
Qed.

Lemma snapshot_sync_bookmark_witness :
  exists evs st' bookmark',
    Macros.sync rows_2020 (state_2020 Macros.self) = (evs, Done st')
    /\ get_bookmark Macros.self st' = Ok bookmark'
    /\ strptime_with_tz 1577836800 <= bookmark'.
Proof.
  destruct (snapshot_sync_bookmark Macros.self rows_2020 (state_2020 Macros.self)
              (strptime_with_tz 1577836800)
              (get_write_bookmark Macros.self ∅ 1577836800))
    as (evs & st' & b' & Hsync & Hget & Hle & _).
  now exists evs, st', b'.
Defined.

(** ** Organizations *)

Lemma organizations_loop_spec (organizations : list Row) :
  forall (st : State) (current : Z),
    get_bookmark Organizations.self st = Ok current ->
    exists st' current',
      Organizations.loop organizations st = (map Yield organizations, Ok st')
      /\ get_bookmark Organizations.self st' = Ok current'
      /\ current <= current'
      /\ (forall organization, In organization organizations ->
            strptime_with_tz (updated_at organization) + timedelta 1 <= current')
      /\ (current' = current
          \/ exists organization,
               In organization organizations
               /\ current'
                  = strptime_with_tz (updated_at organization) + timedelta 2).
Proof.
  induction organizations as [|organization rest IH]; intros st current Hget.
  - exists st, current. split; [reflexivity|]. split; [exact Hget|].
    split; [lia|]. split; [intros r []|now left].
  - cbn [Organizations.loop map].
    assert (Hup : exists st1 c1,
               update_bookmark Organizations.self st
                 (Some (strftime (Organizations.datetime_strptime
                                    (updated_at organization) + timedelta 1)))
               = Ok st1
               /\ get_bookmark Organizations.self st1 = Ok c1
               /\ current <= c1
               /\ strptime_with_tz (updated_at organization) + timedelta 1 <= c1
               /\ (c1 = current
                   \/ c1 = strptime_with_tz (updated_at organization)
                           + timedelta 2)).
    { unfold update_bookmark. rewrite Hget.
      destruct (Z.ltb_spec current
                  (strptime_with_tz
                     (strftime (Organizations.datetime_strptime
                                  (updated_at organization) + timedelta 1)))).
      - eexists _, _. split; [reflexivity|].
        rewrite get_write_bookmark, strftime_plus_second.
        split; [reflexivity|]. unfold Organizations.datetime_strptime in *.
        split; [time_lia|]. split; [time_lia|]. right. time_lia.
      - exists st, current. split; [reflexivity|]. split; [exact Hget|].
        unfold Organizations.datetime_strptime in *.
        split; [lia|]. split; [time_lia|now left]. }
    destruct Hup as (st1 & c1 & -> & Hget1 & Hle1 & Hrec1 & Hc1).
    destruct (IH st1 c1 Hget1) as (st' & c' & -> & Hget' & Hle' & Hall & Hlast).
    exists st', c'. split; [reflexivity|]. split; [exact Hget'|].
    split; [lia|]. split.
    + intros r [<-|Hin]; [lia|now apply Hall].
    + destruct Hlast as [->|(r' & Hin' & ->)].
      * destruct Hc1 as [-> | ->]; [now left|].
        right. exists organization. split; [now left|reflexivity].
      * right. exists r'. split; [now right|reflexivity].
Qed.

(** [Organizations.sync] yields every listed organization, in order, with no
    filter.  The bookmark it leaves is at least one second past the
    [updated_at] of every organization it yielded, and when it moved it is
    two seconds past the [updated_at] of one of them: one second is added
    before [update_bookmark] and one inside it. *)
Theorem organizations_sync_spec (organizations : list Row) (st : State)
    (bookmark : Z) :
  get_bookmark Organizations.self st = Ok bookmark ->
  exists st' bookmark',
    Organizations.sync organizations st = (map Yield organizations, Done st')
    /\ get_bookmark Organizations.self st' = Ok bookmark'
    /\ bookmark <= bookmark'
    /\ (forall organization, In organization organizations ->
          strptime_with_tz (updated_at organization) + timedelta 1 <= bookmark')
    /\ (bookmark' = bookmark
        \/ exists organization,
             In organization organizations
             /\ bookmark'
                = strptime_with_tz (updated_at organization) + timedelta 2).
Proof.
  intros Hget. unfold Organizations.sync. rewrite Hget.
  destruct (organizations_loop_spec organizations st bookmark Hget)
    as (st' & c' & -> & Hrest).
  now exists st', c'.
Qed.

Lemma organizations_sync_spec_witness :
  exists st' bookmark',
    Organizations.sync rows_2020 (state_2020 Organizations.self)
    = (map Yield rows_2020, Done st')
    /\ get_bookmark Organizations.self st' = Ok bookmark'
    /\ strptime_with_tz 1577836810 + timedelta 1 <= bookmark'.
Proof.
  destruct (organizations_sync_spec rows_2020 (state_2020 Organizations.self)
              (strptime_with_tz 1577836800)
              (get_write_bookmark Organizations.self ∅ 1577836800))
    as (st' & b' & Hsync & Hget & _ & Hall & _).
  exists st', b'. split; [exact Hsync|]. split; [exact Hget|].
  apply (Hall {| row_id := 1; updated_at := 1577836810 |}). left. reflexivity.
Defined.

(** ** Tickets *)

Lemma tickets_loop_spec (tickets : list TicketDict) :
  (forall ticket, In ticket tickets -> dict_fields ticket <> None) ->
  forall (ids : list Z) (st : State) (current : Z),
    get_bookmark Tickets.self st = Ok current ->
    exists evs st' current',
      Tickets.loop tickets ids st = (evs, inr st')
      /\ get_bookmark Tickets.self st' = Ok current'
      /\ current <= current'
      /\ (forall ticket, In ticket tickets ->
            utcfromtimestamp (generated_timestamp (dict_ticket ticket))
            + timedelta 1 <= current')
      /\ (forall ticket, In ticket (yields evs) -> dict_fields ticket = None)
      /\ NoDup (yielded_ids evs)
      /\ (forall i, i ∈ yielded_ids evs
                    <-> ((i ∉ ids)
                         /\ exists ticket, In ticket tickets
                                           /\ ticket_id (dict_ticket ticket) = i)).
Proof.
  induction tickets as [|ticket rest IH]; intros Hfields ids st current Hget.
  - exists [], st, current. split; [reflexivity|]. split; [exact Hget|].
    split; [lia|]. split; [intros t []|]. split; [intros t []|].
    split; [constructor|].
    intros i. split; [intros Hin; now apply elem_of_nil in Hin|].
    intros (_ & t & [] & _).
  - cbn [Tickets.loop].
    assert (Hup : exists st1 c1,
               update_bookmark Tickets.self st
                 (Some (utils_strftime
                          (utcfromtimestamp
                             (generated_timestamp (dict_ticket ticket))
                           + timedelta 1))) = Ok st1
               /\ get_bookmark Tickets.self st1 = Ok c1
               /\ current <= c1
               /\ utcfromtimestamp (generated_timestamp (dict_ticket ticket))
                  + timedelta 1 <= c1).
    { unfold update_bookmark. rewrite Hget.
      destruct (Z.ltb_spec current
                  (strptime_with_tz
                     (utils_strftime
                        (utcfromtimestamp
                           (generated_timestamp (dict_ticket ticket))
                         + timedelta 1)))).
      - eexists _, _. split; [reflexivity|].
        rewrite get_write_bookmark, strftime_plus_second.
        split; [reflexivity|]. split; time_lia.
      - exists st, current. split; [reflexivity|]. split; [exact Hget|].
        split; [lia|time_lia]. }
    destruct Hup as (st1 & c1 & -> & Hget1 & Hle1 & Hrec1).
    assert (Hrestf : forall t, In t rest -> dict_fields t <> None)
      by (intros t Hin; apply Hfields; now right).
    unfold seen. case_bool_decide as Hseen; cbn [negb].
    + destruct (IH Hrestf ids st1 c1 Hget1)
        as (evs & st' & c' & -> & Hget' & Hle' & Hall & Hnof & Hnd & Hids).
      exists evs, st', c'. split; [reflexivity|]. split; [exact Hget'|].
      split; [lia|]. split; [intros t [<-|Hin]; [lia|now apply Hall]|].
      split; [exact Hnof|]. split; [exact Hnd|].
      intros i. rewrite Hids. split.
      * intros (Hni & t & Hin & Hid). split; [exact Hni|].
        exists t. split; [now right|exact Hid].
      * intros (Hni & t & [<-|Hin] & Hid); [subst i; contradiction|].
        split; [exact Hni|]. now exists t.
    + destruct (dict_fields ticket) as [fields|] eqn:Hf;
        [|exfalso; apply (Hfields ticket); [now left|exact Hf]].
      destruct (IH Hrestf (ids ++ [ticket_id (dict_ticket ticket)]) st1 c1 Hget1)
        as (evs & st' & c' & -> & Hget' & Hle' & Hall & Hnof & Hnd & Hids).
      eexists _, st', c'. split; [reflexivity|]. split; [exact Hget'|].
      split; [lia|]. split; [intros t [<-|Hin]; [lia|now apply Hall]|].
      split; [intros t [<-|Hin]; [reflexivity|now apply Hnof]|].
      unfold yielded_ids in *. cbn [yields map dict_ticket].
      split.
      * constructor; [|exact Hnd].
        intros Hin. apply Hids in Hin as [Hni _]. apply Hni.
        apply elem_of_app. right. now apply list_elem_of_singleton.
      * intros i. rewrite elem_of_cons, Hids, elem_of_app,
          list_elem_of_singleton. split.
        -- intros [->|(Hni & t & Hin & Hid)].
           ++ split; [exact Hseen|]. exists ticket. split; [now left|reflexivity].
           ++ split; [tauto|]. exists t. split; [now right|exact Hid].
        -- intros (Hni & t & [<-|Hin] & Hid); [now left|].
           destruct (decide (i = ticket_id (dict_ticket ticket))) as [->|Hne];
             [now left|].
           right. split; [tauto|]. now exists t.
Qed.

(** [Tickets.sync], on a listing whose dicts all have ['fields']: it never
    raises; it yields every listed ticket id exactly once however often the
    listing repeats it, and every yielded dict is without ['fields']; the
    bookmark is advanced for every listed ticket, repeated or not, and ends
    at least one second past the [generated_timestamp] of each. *)
Theorem tickets_sync_spec (tickets : list TicketDict) (st : State)
    (bookmark : Z) :
  (forall ticket, In ticket tickets -> dict_fields ticket <> None) ->
  get_bookmark Tickets.self st = Ok bookmark ->
  exists evs st' bookmark',
    Tickets.sync tickets st = (evs, inr st')
    /\ get_bookmark Tickets.self st' = Ok bookmark'
    /\ bookmark <= bookmark'
    /\ (forall ticket, In ticket tickets ->
          utcfromtimestamp (generated_timestamp (dict_ticket ticket))
          + timedelta 1 <= bookmark')
    /\ (forall ticket, In ticket (yields evs) -> dict_fields ticket = None)
    /\ NoDup (yielded_ids evs)
    /\ (forall i, i ∈ yielded_ids evs
                  <-> exists ticket, In ticket tickets
                                     /\ ticket_id (dict_ticket ticket) = i).
Proof.
  intros Hfields Hget. unfold Tickets.sync. rewrite Hget.
  destruct (tickets_loop_spec tickets Hfields [] st bookmark Hget)
    as (evs & st' & c' & -> & Hget' & Hle & Hall & Hnof & Hnd & Hids).
  exists evs, st', c'. repeat (split; [assumption || reflexivity|]).
  intros i. rewrite Hids. split; [tauto|].
  intros Hex. split; [apply not_elem_of_nil|exact Hex].
Qed.

Lemma tickets_sync_spec_witness :
  exists evs st',
    Tickets.sync ticket_dicts (state_2020 Tickets.self) = (evs, inr st')
    /\ yielded_ids evs = [42; 43].
Proof.
  destruct (tickets_sync_spec ticket_dicts (state_2020 Tickets.self)
              (strptime_with_tz 1577836800))
    as (evs & st' & b' & Hsync & _).
  - intros ticket [<-|[<-|[<-|[]]]]; discriminate.
  - apply get_write_bookmark.
  - exists evs, st'. split; [exact Hsync|].
    assert (Hrun : fst (Tickets.sync ticket_dicts (state_2020 Tickets.self)) = evs)
      by now rewrite Hsync.
    rewrite <- Hrun. vm_compute. reflexivity.
Defined.

(** ** Child expansion, when the child API answers *)

Lemma push_ticket_child_Ok (self : Stream) (st : State) (ticket : Ticket)
    (c : Child) (current : Z) :
  get_bookmark self st = Ok current ->
  exists evs st' current',
    Tickets.push_ticket_child self st ticket c = (evs, Ok st')
    /\ get_bookmark self st' = Ok current'.
Proof.
  intros Hget. unfold Tickets.push_ticket_child.
  destruct (update_bookmark_Ok self st
              (Some (utils_strftime
                       (utcfromtimestamp (generated_timestamp ticket)
                        + timedelta 1))) current Hget)
    as (st' & c' & -> & Hget' & _).
  now eexists _, st', c'.
Qed.

(** [push_ticket_child] always yields the child, tagged with the parent's
    [generated_timestamp]; the bookmark it leaves is two seconds past that
    timestamp when one second past it is later than the bookmark found, and
    the bookmark found otherwise. *)
Theorem push_ticket_child_spec (self : Stream) (st : State) (ticket : Ticket)
    (c : Child) (current : Z) :
  get_bookmark self st = Ok current ->
  exists st',
    Tickets.push_ticket_child self st ticket c
    = ([Yield {| child := c;
                 ticket_generated_timestamp := generated_timestamp ticket |}],
       Ok st')
    /\ get_bookmark self st'
       = Ok (if current <? utcfromtimestamp (generated_timestamp ticket)
                           + timedelta 1
             then utcfromtimestamp (generated_timestamp ticket) + timedelta 2
             else current).
Proof.
  intros Hget.
  destruct (Z.ltb_spec current
              (utcfromtimestamp (generated_timestamp ticket) + timedelta 1))
    as [Hlt|Hge].
  - exact (push_ticket_child_bookmark self st ticket c current Hget Hlt).
  - unfold Tickets.push_ticket_child, update_bookmark. rewrite Hget.
    destruct (Z.ltb_spec current
                (strptime_with_tz
                   (utils_strftime
                      (utcfromtimestamp (generated_timestamp ticket)
                       + timedelta 1)))); [time_lia|].
    now exists st.
Qed.

Lemma push_ticket_child_spec_witness :
  exists st',
    Tickets.push_ticket_child TicketAudits.self (state_2020 TicketAudits.self)
      ticket_42 {| child_id := 1 |}
    = ([Yield {| child := {| child_id := 1 |};
                 ticket_generated_timestamp := 1609459200 |}], Ok st')
    /\ get_bookmark TicketAudits.self st' = Ok (strptime_with_tz 1609459202).
Proof.
  apply (push_ticket_child_spec TicketAudits.self (state_2020 TicketAudits.self)
           ticket_42 {| child_id := 1 |} (strptime_with_tz 1577836800)).
  apply get_write_bookmark.
Defined.

Lemma push_ticket_children_Ok (self : Stream) (ticket : Ticket)
    (children : list Child) :
  forall (st : State) (current : Z),
    get_bookmark self st = Ok current ->
    exists evs st' current',
      Tickets.push_ticket_children self st ticket children = (evs, Ok st')
      /\ get_bookmark self st' = Ok current'.
Proof.
  induction children as [|c rest IH]; intros st current Hget.
  - now exists [], st, current.
  - cbn [Tickets.push_ticket_children].
    destruct (push_ticket_child_Ok self st ticket c current Hget)
      as (evs1 & st1 & c1 & -> & Hget1).
    destruct (IH st1 c1 Hget1) as (evs & st' & c' & -> & Hget').
    now eexists _, st', c'.
Qed.

Section answering.
Variable self : Stream.
Variable fetch : Z -> result (list Child).
Hypothesis fetch_answers : forall i, exists children, fetch i = Ok children.

Lemma guarded_loop_Ok (tickets : list Ticket) :
  forall (ids : list Z) (st : State) (current : Z),
    get_bookmark self st = Ok current ->
    exists evs st',
      guarded_children_loop self fetch tickets ids st = (evs, Ok st')
      /\ forall ticket, In ticket tickets -> deleted ticket = false ->
                        ticket_id ticket ∉ ids ->
                        In (ChildFetch (ticket_id ticket)) evs.
Proof.
  induction tickets as [|ticket rest IH]; intros ids st current Hget.
  - exists [], st. split; [reflexivity|]. intros t [].
  - cbn [guarded_children_loop].
    destruct (deleted ticket) eqn:Hdel; cbn [negb andb].
    { destruct (IH ids st current Hget) as (evs & st' & -> & Hall).
      exists evs, st'. split; [reflexivity|].
      intros t [<-|Hin] Hd Hni; [congruence|now apply Hall]. }
    unfold seen. case_bool_decide as Hseen; cbn [negb].
    { destruct (IH ids st current Hget) as (evs & st' & -> & Hall).
      exists evs, st'. split; [reflexivity|].
      intros t [<-|Hin] Hd Hni; [contradiction|now apply Hall]. }
    destruct (fetch_answers (ticket_id ticket)) as (children & ->).
    destruct (push_ticket_children_Ok self ticket children st current Hget)
      as (evs1 & st1 & c1 & -> & Hget1).
    destruct (IH (ids ++ [ticket_id ticket]) st1 c1 Hget1)
      as (evs & st' & -> & Hall).
    eexists _, st'. split; [reflexivity|].
    intros t Hin Hd Hni.
    destruct (decide (ticket_id t = ticket_id ticket)) as [->|Hne];
      [now left|].
    destruct Hin as [<-|Hin]; [contradiction|].
    right. apply in_or_app. right. apply Hall; [exact Hin|exact Hd|].
    rewrite elem_of_app, list_elem_of_singleton. tauto.
Qed.

End answering.

(** When no child fetch raises, [TicketAudits.sync] and
    [TicketComments.sync] run to the end of the listing, and the children of
    every listed ticket that is not deleted are fetched exactly once. *)
Theorem undeleted_parents_fetched_once (tickets : list Ticket)
    (audits comments : Z -> result (list Child)) (st : State) :
  (forall i, exists children, audits i = Ok children) ->
  (forall i, exists children, comments i = Ok children) ->
  ((exists current, get_bookmark TicketAudits.self st = Ok current) ->
   exists evs st',
     TicketAudits.sync tickets audits st = (evs, Done st')
     /\ forall ticket, In ticket tickets ->
          status ticket <> "deleted"%string ->
          fetches (ticket_id ticket) evs = 1%nat)
  /\ ((exists current, get_bookmark TicketComments.self st = Ok current) ->
      exists evs st',
        TicketComments.sync tickets comments st = (evs, Done st')
        /\ forall ticket, In ticket tickets ->
             status ticket <> "deleted"%string ->
             fetches (ticket_id ticket) evs = 1%nat).
Proof.
  intros Haudits Hcomments.
  assert (Hgen : forall self fetch current,
             (forall i, exists children, fetch i = Ok children) ->
             get_bookmark self st = Ok current ->
             exists evs st',
               run_children st self (guarded_children_loop self fetch tickets [])
               = (evs, Done st')
               /\ forall ticket, In ticket tickets ->
                    status ticket <> "deleted"%string ->
                    fetches (ticket_id ticket) evs = 1%nat).
  { intros self fetch current Hfetch Hget. unfold run_children. rewrite Hget.
    pose proof (fun i => guarded_fetches_once self fetch i tickets [] st) as Honce.
    destruct (guarded_loop_Ok self fetch Hfetch tickets [] st current Hget)
      as (evs & st' & Hloop & Hall).
    rewrite Hloop in *. exists evs, st'. split; [reflexivity|].
    intros ticket Hin Hst.
    assert (Hfetched : In (ChildFetch (ticket_id ticket)) evs).
    { apply Hall; [exact Hin| |apply not_elem_of_nil].
      unfold deleted. now apply bool_decide_eq_false_2. }
    destruct (Honce (ticket_id ticket)) as [_ Hle]. simpl in Hle.
    destruct (fetches (ticket_id ticket) evs) as [|[|n]] eqn:Hn;
      [|reflexivity|lia].
    now apply fetches_zero_not_in in Hn. }
  split; intros [current Hget].
  - now apply (Hgen TicketAudits.self audits current).
  - now apply (Hgen TicketComments.self comments current).
Qed.

Lemma undeleted_parents_fetched_once_witness :
  exists evs st',
    TicketAudits.sync [ticket_deleted; ticket_42; ticket_43; ticket_42] one_child
      (state_2020 TicketAudits.self) = (evs, Done st')
    /\ fetches 42 evs = 1%nat.
Proof.
  destruct (undeleted_parents_fetched_once
              [ticket_deleted; ticket_42; ticket_43; ticket_42]
              one_child one_child (state_2020 TicketAudits.self))
    as [Haudits _].
  - intros i. now eexists.
  - intros i. now eexists.
  - destruct Haudits as (evs & st' & Hsync & Hall).
    + eexists. apply get_write_bookmark.
    + exists evs, st'. split; [exact Hsync|].
      apply (Hall ticket_42); [right; left; reflexivity|discriminate].
Defined.

(** ** Custom fields *)

Lemma CUSTOM_TYPES_lookup (zendesk_type : string) :
  (forall json_type,
      CUSTOM_TYPES !! zendesk_type = Some json_type ->
      zendesk_type ∈ supported_types /\ json_type ∈ json_types)
  /\ (CUSTOM_TYPES !! zendesk_type = None -> zendesk_type ∉ supported_types).
Proof.
  split.
  - intros json_type Hlook. unfold CUSTOM_TYPES in Hlook.
    apply elem_of_list_to_map_2 in Hlook.
    repeat (apply elem_of_cons in Hlook as [[= -> ->]|Hlook];
            [split; unfold supported_types, json_types; set_solver|]).
    now apply elem_of_nil in Hlook.
  - intros Hnone Hin. unfold supported_types in Hin.
    repeat (apply elem_of_cons in Hin as [->|Hin]; [discriminate Hnone|]).
    now apply elem_of_nil in Hin.
Qed.

Lemma process_custom_field_supported (field : CustomField) :
  (exists schema, process_custom_field field = Ok schema)
  <-> field_type field ∈ supported_types.
Proof.
  destruct (CUSTOM_TYPES_lookup (field_type field)) as [Hsome Hnone].
  unfold process_custom_field.
  destruct (CUSTOM_TYPES !! field_type field) as [json_type|] eqn:Hlook.
  - split; [intros _; now apply (Hsome json_type)|intros _; now eexists].
  - split; [intros [schema Hok]; discriminate|].
    intros Hin. now apply Hnone in Hin.
Qed.

(** [process_custom_field] succeeds exactly on the eight types of
    [CUSTOM_TYPES] and raises on any other.  The schema it builds is always
    nullable, over one of four JSON types; it has a ['format'] exactly for a
    date field, and an ['enum'], the values of the field's options, exactly
    for a dropdown. *)
Theorem process_custom_field_spec (field : CustomField) :
  ((exists schema, process_custom_field field = Ok schema)
   <-> field_type field ∈ supported_types)
  /\ (forall schema,
        process_custom_field field = Ok schema ->
        (exists json_type,
            schema_type schema = [json_type; "null"%string]
            /\ json_type ∈ json_types)
        /\ (schema_format schema = Some "datetime"%string
            /\ field_type field = "date"%string
            \/ schema_format schema = None
               /\ field_type field <> "date"%string)
        /\ (schema_enum schema = Some (custom_field_options field)
            /\ field_type field = "dropdown"%string
            \/ schema_enum schema = None
               /\ field_type field <> "dropdown"%string)).
Proof.
  destruct (CUSTOM_TYPES_lookup (field_type field)) as [Hsome Hnone].
  unfold process_custom_field.
  destruct (CUSTOM_TYPES !! field_type field) as [json_type|] eqn:Hlook.
  - destruct (Hsome json_type eq_refl) as [Hsup Hjson]. split.
    + split; [intros _; exact Hsup|intros _; now eexists].
    + intros schema [= <-]. cbn [schema_type schema_format schema_enum].
      split; [now exists json_type|].
      split; case_bool_decide; tauto.
  - split; [|discriminate].
    split; [intros [schema Hok]; discriminate|].
    intros Hin. now apply Hnone in Hin.
Qed.

Lemma process_custom_field_spec_witness :
  (exists schema, process_custom_field field_dropdown = Ok schema)
  /\ schema_enum
       (match process_custom_field field_dropdown with
        | Ok schema => schema
        | Raise _ => {| schema_type := []; schema_format := None;
                        schema_enum := None |}
        end)
     = Some ["free"%string; "paid"%string].
Proof.
  destruct (process_custom_field_spec field_dropdown) as [Hsup Hshape].
  assert (Hok : exists schema, process_custom_field field_dropdown = Ok schema).
  { apply Hsup. unfold supported_types. set_solver. }
  split; [exact Hok|].
  destruct Hok as [schema Hok]. rewrite Hok.
  destruct (Hshape schema Hok) as (_ & _ & [[Henum _]|[_ Hne]]);
    [exact Henum|].
  exfalso. apply Hne. reflexivity.
Defined.

Lemma add_fields_spec (fields : list CustomField) :
  (forall field, In field fields ->
     exists schema, process_custom_field field = Ok schema) ->
  forall properties : gmap string FieldSchema,
    exists m,
      add_fields properties fields = inr m
      /\ (forall key, key ∉ map field_key fields ->
            m !! key = properties !! key)
      /\ (forall key, key ∈ map field_key fields -> is_Some (m !! key))
      /\ (forall pre field post schema,
            fields = pre ++ field :: post ->
            field_key field ∉ map field_key post ->
            process_custom_field field = Ok schema ->
            m !! field_key field = Some schema).
Proof.
  induction fields as [|field rest IH]; intros Hall properties.
  - exists properties. split; [reflexivity|]. split; [reflexivity|].
    split; [intros key Hin; now apply elem_of_nil in Hin|].
    intros [|? ?] ? ? ? [=].
  - cbn [add_fields].
    destruct (Hall field (or_introl eq_refl)) as [schema Hschema].
    rewrite Hschema.
    destruct (IH (fun f Hin => Hall f (or_intror Hin))
                (<[field_key field := schema]> properties))
      as (m & -> & Hother & Hin & Hlast).
    exists m. split; [reflexivity|]. cbn [map]. split; [|split].
    + intros key Hni. rewrite not_elem_of_cons in Hni. destruct Hni as [Hne Hni].
      rewrite (Hother key Hni). now apply lookup_insert_ne.
    + intros key Hkey. apply elem_of_cons in Hkey as [->|Hkey];
        [|now apply Hin].
      destruct (decide (field_key field ∈ map field_key rest)) as [Hr|Hr];
        [now apply Hin|].
      rewrite (Hother _ Hr), lookup_insert_eq. now eexists.
    + intros pre f post s Heq Hni Hs. destruct pre as [|g pre].
      * injection Heq as <- <-. rewrite (Hother _ Hni), lookup_insert_eq.
        congruence.
      * injection Heq as _ Heq. now apply (Hlast pre f post s).
Qed.

(** [_add_custom_fields].  When the field listing answers and every field
    has a supported type, the custom-field properties are replaced by one
    entry per field key, the last field of a key giving its schema; one
    field of an unsupported type makes the whole call raise.  When the
    listing raises an [APIException]: if its body parses to the no-access
    message, the properties are returned as they were and a warning is
    logged; if it parses to another message, the [APIException] is raised
    again; if parsing or indexing the body raises, that exception is what the
    call raises. *)
Theorem add_custom_fields_spec (error_message : string -> pyerr + string)
    (properties : gmap string FieldSchema) (fields : list CustomField)
    (body : string) :
  ((forall field, In field fields ->
      field_type field ∈ supported_types) ->
   exists m,
     _add_custom_fields error_message properties (Ok fields) = ([], inr m)
     /\ (forall key, is_Some (m !! key) <-> key ∈ map field_key fields)
     /\ (forall pre field post schema,
           fields = pre ++ field :: post ->
           field_key field ∉ map field_key post ->
           process_custom_field field = Ok schema ->
           m !! field_key field = Some schema))
  /\ ((exists field, In field fields
                     /\ field_type field ∉ supported_types) ->
      exists msg,
        _add_custom_fields error_message properties (Ok fields)
        = ([], inl (Exn (Exception_ msg))))
  /\ (error_message body = inr NO_ACCESS ->
      exists warning,
        _add_custom_fields error_message properties (Raise (APIException body))
        = ([warning], inr properties))
  /\ (forall message,
        error_message body = inr message -> message <> NO_ACCESS ->
        _add_custom_fields error_message properties (Raise (APIException body))
        = ([], inl (Exn (APIException body))))
  /\ (forall raised,
        error_message body = inl raised ->
        _add_custom_fields error_message properties (Raise (APIException body))
        = ([], inl raised)).
Proof.
  split; [|split; [|split; [|split]]].
  - intros Hsup.
    destruct (add_fields_spec fields
                (fun f Hin => proj2 (process_custom_field_supported f)
                                (Hsup f Hin)) ∅)
      as (m & Hadd & Hother & Hin & Hlast).
    exists m. cbn [_add_custom_fields]. rewrite Hadd.
    split; [reflexivity|]. split; [|exact Hlast].
    intros key. split; [|apply Hin].
    intros Hsome. destruct (decide (key ∈ map field_key fields)) as [|Hni];
      [assumption|].
    rewrite (Hother key Hni), lookup_empty in Hsome. now destruct Hsome.
  - intros (field & Hin & Hbad). cbn [_add_custom_fields].
    generalize (∅ : gmap string FieldSchema).
    induction fields as [|f rest IH]; intros acc; [destruct Hin|].
    cbn [add_fields].
    destruct (process_custom_field f) as [schema|e] eqn:Hf.
    + destruct Hin as [->|Hin]; [|now apply IH].
      exfalso. apply Hbad. apply (process_custom_field_supported field).
      now exists schema.
    + unfold process_custom_field in Hf.
      destruct (CUSTOM_TYPES !! field_type f); [discriminate|].
      injection Hf as <-. now eexists.
  - intros Hparse. eexists.
    cbn [_add_custom_fields raise_or_log_zenpy_apiexception]. rewrite Hparse.
    now rewrite bool_decide_eq_true_2 by reflexivity.
  - intros message Hparse Hne.
    cbn [_add_custom_fields raise_or_log_zenpy_apiexception]. rewrite Hparse.
    now rewrite bool_decide_eq_false_2.
  - intros raised Hparse.
    cbn [_add_custom_fields raise_or_log_zenpy_apiexception].
    now rewrite Hparse.
Qed.

Lemma add_custom_fields_spec_witness :
  (exists m,
      _add_custom_fields sample_error_message ∅ (Ok [field_dropdown])
      = ([], inr m)
      /\ (forall key, is_Some (m !! key) <-> key ∈ ["plan"%string]))
  /\ (exists msg,
        _add_custom_fields sample_error_message ∅
          (Ok [field_dropdown; field_lookup])
        = ([], inl (Exn (Exception_ msg))))
  /\ (exists warning,
        _add_custom_fields sample_error_message ∅
          (Raise (APIException "no-access body"))
        = ([warning], inr ∅))
  /\ _add_custom_fields sample_error_message ∅
       (Raise (APIException "forbidden body"))
     = ([], inl (Exn (APIException "forbidden body")))
  /\ _add_custom_fields sample_error_message ∅
       (Raise (APIException "plain text"))
     = ([], inl (Exn TypeError)).
Proof.
  split; [|split; [|split; [|split]]].
  - destruct (add_custom_fields_spec sample_error_message ∅ [field_dropdown] "")
      as [Hok _].
    destruct Hok as (m & Hrun & Hkeys & _).
    + intros field [<-|[]]. unfold supported_types. set_solver.
    + now exists m.
  - destruct (add_custom_fields_spec sample_error_message ∅
                [field_dropdown; field_lookup] "") as (_ & Hbad & _).
    apply Hbad. exists field_lookup. split; [right; now left|].
    unfold supported_types. cbn. intros Hin.
    repeat (apply elem_of_cons in Hin as [Hin|Hin]; [discriminate Hin|]).
    now apply elem_of_nil in Hin.
  - destruct (add_custom_fields_spec sample_error_message ∅ [] "no-access body")
      as (_ & _ & Hnone & _).
    apply Hnone. reflexivity.
  - destruct (add_custom_fields_spec sample_error_message ∅ [] "forbidden body")
      as (_ & _ & _ & Hother & _).
    apply (Hother "Forbidden"%string); [reflexivity|discriminate].
  - destruct (add_custom_fields_spec sample_error_message ∅ [] "plain text")
      as (_ & _ & _ & _ & Hraise).
    apply Hraise. reflexivity.
Defined.

(** ** [__init__.py]: credentials and the sync of a catalog *)

(** OAuth has precedence: when the configuration has an access token (and
    the subdomain), the client is built from the OAuth credentials, whether
    or not an email and an API token are configured too. *)
Theorem main_oauth_precedence
    (sync_stream : State -> StreamClass -> pyerr + State) (parsed_args : Args)
    (subdomain access_token : string) :
  args_config parsed_args !! "subdomain"%string = Some subdomain ->
  args_config parsed_args !! "access_token"%string = Some access_token ->
  exists out r,
    main sync_stream parsed_args
    = (NewClient (<["subdomain"%string := subdomain]>
                    (<["oauth_token"%string := access_token]> ∅))
         (get_session (args_config parsed_args)) :: out, r).
Proof.
  intros Hsub Htok. unfold main, oauth_auth, issubset, getitem.
  cbn [OAUTH_CONFIG_KEYS forallb]. rewrite Hsub, Htok.
  rewrite bool_decide_eq_true_2 by now eexists. cbn [andb negb].
  destruct (args_discover parsed_args); [now eexists _, _|].
  destruct (args_catalog parsed_args) as [catalog|]; [|now eexists _, _].
  destruct (do_sync sync_stream catalog (args_state parsed_args)) as [out [e|st']];
    now eexists _, _.
Qed.

Lemma main_oauth_precedence_witness :
  exists out r,
    main sync_stream_ok
      {| args_config := config_both; args_discover := true;
         args_catalog := None; args_state := ∅ |}
    = (NewClient (<["subdomain"%string := "acme"%string]>
                    (<["oauth_token"%string := "t0k3n"%string]> ∅)) None
         :: out, r).
Proof.
  apply (main_oauth_precedence sync_stream_ok
           {| args_config := config_both; args_discover := true;
              args_catalog := None; args_state := ∅ |} "acme" "t0k3n");
    vm_compute; reflexivity.
Defined.

(** Without an access token and without the pair of email and API token,
    [main] ends with the [TypeError] of [Zenpy(session=session, **None)]:
    no client is built, nothing is discovered or synced. *)
Theorem main_without_credentials
    (sync_stream : State -> StreamClass -> pyerr + State) (parsed_args : Args) :
  args_config parsed_args !! "access_token"%string = None ->
  args_config parsed_args !! "email"%string = None
  \/ args_config parsed_args !! "api_token"%string = None ->
  main sync_stream parsed_args = ([], inl (Exn TypeError)).
Proof.
  intros Htok Hapi. unfold main, oauth_auth, api_token_auth, issubset.
  cbn [OAUTH_CONFIG_KEYS API_TOKEN_CONFIG_KEYS forallb]. rewrite Htok.
  rewrite (bool_decide_eq_false_2 (is_Some None)) by (intros [? [=]]).
  cbn [andb negb].
  destruct Hapi as [-> | ->];
    rewrite (bool_decide_eq_false_2 (is_Some None)) by (intros [? [=]]);
    rewrite ?andb_false_r; reflexivity.
Qed.

Lemma main_without_credentials_witness :
  main sync_stream_ok
    {| args_config := config_none; args_discover := false;
       args_catalog := Some ["users"%string]; args_state := ∅ |}
  = ([], inl (Exn TypeError)).
Proof.
  apply main_without_credentials; [|left]; vm_compute; reflexivity.
Defined.

Lemma select_streams_known (catalog : list string) :
  (forall id, In id catalog -> is_Some (STREAMS !! id)) ->
  select_streams catalog = inr tt.
Proof.
  induction catalog as [|id rest IH]; intros Hall; [reflexivity|].
  cbn [select_streams]. destruct (Hall id (or_introl eq_refl)) as [class ->].
  apply IH. intros i Hin. apply Hall. now right.
Qed.

(** A catalog naming a stream that [STREAMS] does not have makes [do_sync]
    raise [KeyError] for the first such name before anything is written or
    synced, also for the streams listed before it. *)
Theorem do_sync_unknown_stream
    (sync_stream : State -> StreamClass -> pyerr + State)
    (known : list string) (unknown : string) (rest : list string) (st : State) :
  (forall id, In id known -> is_Some (STREAMS !! id)) ->
  STREAMS !! unknown = None ->
  do_sync sync_stream (known ++ unknown :: rest) st
  = ([], inl (KeyError unknown)).
Proof.
  intros Hknown Hunknown. unfold do_sync.
  assert (Hsel : select_streams (known ++ unknown :: rest)
                 = inl (KeyError unknown)).
  { induction known as [|id known IH]; cbn [app select_streams].
    - now rewrite Hunknown.
    - destruct (Hknown id (or_introl eq_refl)) as [class ->].
      apply IH. intros i Hin. apply Hknown. now right. }
  now rewrite Hsel.
Qed.

Lemma do_sync_unknown_stream_witness :
  do_sync sync_stream_ok
    (["users"%string; "groups"%string] ++ "agents"%string :: ["tags"%string]) ∅
  = ([], inl (KeyError "agents")).
Proof.
  apply do_sync_unknown_stream.
  - intros id [<-|[<-|[]]]; vm_compute; now eexists.
  - vm_compute. reflexivity.
Defined.

Lemma sync_streams_started
    (sync_stream : State -> StreamClass -> pyerr + State)
    (catalog : list string) :
  (forall id, In id catalog -> is_Some (STREAMS !! id)) ->
  forall st : State,
    exists post,
      catalog = started (fst (sync_streams sync_stream catalog st)) ++ post
      /\ match snd (sync_streams sync_stream catalog st) with
         | inr _ => post = []
         | inl e =>
             exists pre failed class st0,
               started (fst (sync_streams sync_stream catalog st))
               = pre ++ [failed]
               /\ STREAMS !! failed = Some class
               /\ sync_stream st0 class = inl e
               /\ exists out,
                    fst (sync_streams sync_stream catalog st)
                    = out ++ [WriteSchema failed; SyncStream failed]
         end.
Proof.
  induction catalog as [|id rest IH]; intros Hall st.
  - exists []. now split.
  - cbn [sync_streams]. destruct (Hall id (or_introl eq_refl)) as [class Hclass].
    rewrite Hclass.
    destruct (sync_stream st class) as [e|st'] eqn:Hsync.
    + exists rest. split; [reflexivity|]. cbn [fst snd started].
      exists [], id, class, st. split; [reflexivity|]. split; [exact Hclass|].
      split; [exact Hsync|]. now exists [].
    + destruct (IH (fun i Hin => Hall i (or_intror Hin)) st')
        as (post & Hcat & Hres).
      destruct (sync_streams sync_stream rest st') as [out r].
      cbn [fst snd started] in *. exists post.
      split; [now rewrite Hcat at 1|].
      destruct r as [e|st'']; [|exact Hres].
      destruct Hres as (pre & failed & cl & st0 & Hst & Hcl & Hfail & out' & Hout).
      exists (id :: pre), failed, cl, st0. rewrite Hst.
      split; [reflexivity|]. split; [exact Hcl|]. split; [exact Hfail|].
      exists (WriteSchema id :: SyncStream id :: WriteStateMessage st' :: out').
      now rewrite Hout.
Qed.

(** [do_sync] on a catalog of known streams starts them in catalog order.
    When every [sync_stream] returns, all are started.  When one raises,
    [do_sync] raises the same exception: the streams after it are not
    started, and no state is written after the failing sync. *)
Theorem do_sync_order
    (sync_stream : State -> StreamClass -> pyerr + State)
    (catalog : list string) (st : State) :
  (forall id, In id catalog -> is_Some (STREAMS !! id)) ->
  exists post,
    catalog = started (fst (do_sync sync_stream catalog st)) ++ post
    /\ match snd (do_sync sync_stream catalog st) with
       | inr _ => post = []
       | inl e =>
           exists pre failed class st0,
             started (fst (do_sync sync_stream catalog st)) = pre ++ [failed]
             /\ STREAMS !! failed = Some class
             /\ sync_stream st0 class = inl e
             /\ exists out,
                  fst (do_sync sync_stream catalog st)
                  = out ++ [WriteSchema failed; SyncStream failed]
       end.
Proof.
  intros Hall. unfold do_sync. rewrite (select_streams_known catalog Hall).
  now apply sync_streams_started.
Qed.

Lemma do_sync_order_witness :
  exists post,
    ["groups"; "users"; "tags"]%string
    = started (fst (do_sync sync_stream_users_fail
                      ["groups"; "users"; "tags"]%string ∅)) ++ post
    /\ post = ["tags"%string].
Proof.
  destruct (do_sync_order sync_stream_users_fail
              ["groups"; "users"; "tags"]%string ∅) as (post & Hcat & _).
  - intros id [<-|[<-|[<-|[]]]]; vm_compute; now eexists.
  - exists post. split; [exact Hcat|].
    revert Hcat. vm_compute. now intros [= <-].
Defined.
